(** * job_launcher: the session lifecycle of [src/launcher/job_launcher.c]

    A shallow embedding of the launcher: the process-wide session record,
    the command-line and host-file parsers, session setup, dispatch, the
    receive and shutdown callbacks, the SIGINT handler and [main].

    The C functions mutate one global [launcher_session_t], call into the
    transport ([comlink_*]), print diagnostics and may call [exit].  They
    are modelled in a small monad [M] that threads the session, collects
    the externally visible events in order, and distinguishes a normal
    return, a call to [exit], and undefined behaviour (a NULL dereference
    or an access outside a fixed-size array). *)

From Stdlib Require Import ZArith Lia Ascii String.
From stdpp Require Import base numbers list strings.

Local Open Scope Z_scope.

(** ** Machine integers *)

(** [int] is 32 bits wide; [x += 1] is written out with its wrap-around. *)
Definition INT_MIN : Z := - 2 ^ 31.
Definition INT_MAX : Z := 2 ^ 31 - 1.

Definition int_wrap (z : Z) : Z := (z + 2 ^ 31) mod 2 ^ 32 - 2 ^ 31.

Arguments int_wrap : simpl never.

Definition in_int (z : Z) : Prop := INT_MIN <= z <= INT_MAX.

(** ** Constants of the headers

    [job_launcher.h] and [common.h] are not part of the sources at hand;
    the sizes they fix are parameters of the model. *)
Record platform : Type := {
  sizeof_char_ptr : Z;        (* sizeof(char * ) *)
  sizeof_int : Z;             (* sizeof(session->instances) *)
  MAX_HOSTNAME_LEN : nat;     (* size of the line buffer and of hostname[] *)
  MAX_HOSTS : nat;            (* slots of host_info[] and of skt_conns[] *)
  HOST_FILE_SIZE : nat;       (* size of session->host_file[] *)
  EXE_NAME_SIZE : nat         (* size of session->exe_name[] *)
}.

Definition MAX_CMD_ARGS : Z := 6.
Definition MAX_INSTANCES : Z := 100.
Definition COMLINK_PORT : Z := 25000.
Definition COMLINK_BUF_SIZE : Z := 1024.

(** ** Data model *)

Record host_info_t : Type := { hostname : string }.

(** The buffer pointer and the two callback pointers of the C struct are
    constants of the program and are not represented. *)
Record comlink_params_t : Type := {
  buf_len : Z;
  local_port : Z;
  remote_port : Z;
  remote_ip : Z
}.

Inductive msg_type : Type := CTRL_MESSAGE | PROC_INSTANCES | EXEC_FILENAME.

Record comlink_header_t : Type := { type : msg_type; len : Z }.

(** [host_info] is the array of entry pointers ([None] is NULL) and
    [skt_conns] the array of connection handles; both have the fixed
    capacity given by the length of the list. *)
Record launcher_session_t : Type := {
  instances : Z;
  host_file : string;
  exe_name : string;
  host_count : Z;
  host_info : list (option host_info_t);
  skt_conns : list Z;
  nr_active : Z;
  nr_ackd : Z;
  valid : bool;
  cl_params : comlink_params_t
}.

Definition set_instances (v : Z) (s : launcher_session_t) :=
  {| instances := v; host_file := host_file s; exe_name := exe_name s;
     host_count := host_count s; host_info := host_info s;
     skt_conns := skt_conns s; nr_active := nr_active s;
     nr_ackd := nr_ackd s; valid := valid s; cl_params := cl_params s |}.

Definition set_host_file (v : string) (s : launcher_session_t) :=
  {| instances := instances s; host_file := v; exe_name := exe_name s;
     host_count := host_count s; host_info := host_info s;
     skt_conns := skt_conns s; nr_active := nr_active s;
     nr_ackd := nr_ackd s; valid := valid s; cl_params := cl_params s |}.

Definition set_exe_name (v : string) (s : launcher_session_t) :=
  {| instances := instances s; host_file := host_file s; exe_name := v;
     host_count := host_count s; host_info := host_info s;
     skt_conns := skt_conns s; nr_active := nr_active s;
     nr_ackd := nr_ackd s; valid := valid s; cl_params := cl_params s |}.

Definition set_host_count (v : Z) (s : launcher_session_t) :=
  {| instances := instances s; host_file := host_file s; exe_name := exe_name s;
     host_count := v; host_info := host_info s;
     skt_conns := skt_conns s; nr_active := nr_active s;
     nr_ackd := nr_ackd s; valid := valid s; cl_params := cl_params s |}.

Definition set_host_info (v : list (option host_info_t)) (s : launcher_session_t) :=
  {| instances := instances s; host_file := host_file s; exe_name := exe_name s;
     host_count := host_count s; host_info := v;
     skt_conns := skt_conns s; nr_active := nr_active s;
     nr_ackd := nr_ackd s; valid := valid s; cl_params := cl_params s |}.

Definition set_skt_conns (v : list Z) (s : launcher_session_t) :=
  {| instances := instances s; host_file := host_file s; exe_name := exe_name s;
     host_count := host_count s; host_info := host_info s;
     skt_conns := v; nr_active := nr_active s;
     nr_ackd := nr_ackd s; valid := valid s; cl_params := cl_params s |}.

Definition set_nr_active (v : Z) (s : launcher_session_t) :=
  {| instances := instances s; host_file := host_file s; exe_name := exe_name s;
     host_count := host_count s; host_info := host_info s;
     skt_conns := skt_conns s; nr_active := v;
     nr_ackd := nr_ackd s; valid := valid s; cl_params := cl_params s |}.

Definition set_nr_ackd (v : Z) (s : launcher_session_t) :=
  {| instances := instances s; host_file := host_file s; exe_name := exe_name s;
     host_count := host_count s; host_info := host_info s;
     skt_conns := skt_conns s; nr_active := nr_active s;
     nr_ackd := v; valid := valid s; cl_params := cl_params s |}.

Definition set_valid (v : bool) (s : launcher_session_t) :=
  {| instances := instances s; host_file := host_file s; exe_name := exe_name s;
     host_count := host_count s; host_info := host_info s;
     skt_conns := skt_conns s; nr_active := nr_active s;
     nr_ackd := nr_ackd s; valid := v; cl_params := cl_params s |}.

Definition set_cl_params (v : comlink_params_t) (s : launcher_session_t) :=
  {| instances := instances s; host_file := host_file s; exe_name := exe_name s;
     host_count := host_count s; host_info := host_info s;
     skt_conns := skt_conns s; nr_active := nr_active s;
     nr_ackd := nr_ackd s; valid := valid s; cl_params := v |}.

(** ** Observable events *)

(** What a send hands to the transport: the address of the [instances]
    field, or a character string. *)
Inductive payload : Type :=
| PInt (z : Z)
| PStr (s : string).

(** The lines the launcher prints, one constructor per [fprintf]. *)
Inductive log_line : Type :=
| LogUsage (program : string)
| LogCmdline (n : Z) (hostfile exe : string)
| LogAllocError
| LogHostfileError (file : string)
| LogHostName (name : string)
| LogStatus (buf : string)
| LogAckAll
| LogPeerShutdown
| LogSetupFailed (ip : Z)
| LogHost (i : Z) (name : string)
| LogStartFailed
| LogCtrlC
| LogInvalidOptions
| LogNoHosts
| LogUnstable.

Inductive stream : Type := stdout | stderr.

Inductive event : Type :=
| EPrint (f : stream) (l : log_line)
| EFree (i : nat)
| ESend (fd : Z) (h : comlink_header_t) (p : payload) (n : Z)
| EClientStart
| EClientShutdown
| EClientClose (fd : Z).

(** What the event loop of the transport delivers while
    [comlink_client_start] blocks. *)
Inductive inbound : Type :=
| Report (fd : Z) (buf : string)
| PeerShutdown (fd : Z)
| Interrupt.

(** ** The environment

    Results of the calls that leave the program.  The resolver and the
    connection setup are indexed by the host slot for which they are
    called, [malloc] by the number of the line being read. *)
Record environment : Type := {
  hostname_to_netaddr : nat -> string -> option Z;
  ntohl : Z -> Z;
  comlink_client_setup : nat -> comlink_params_t -> Z;
  comlink_sendto_server : Z -> comlink_header_t -> payload -> Z -> Z;
  malloc_ok : nat -> bool;
  fopen : string -> option string;
  sigaction_ok : bool;
  deliveries : list inbound
}.

(** ** The monad of the launcher *)

(** Where the process ended: the four [exit(2)] calls of the program, and
    the default action of SIGINT when no handler is installed. *)
Inductive exit_site : Type :=
| AtInvalidOptions | AtHostfileOpen | AtNoHosts | AtSetupFailed | AtSigint.

Inductive outcome (A : Type) : Type :=
| Done (a : A)
| Exited (code : Z) (site : exit_site).
Arguments Done {A} a.
Arguments Exited {A} code site.

(** [None] stands for undefined behaviour. *)
Definition M (A : Type) : Type :=
  launcher_session_t -> option (outcome A * launcher_session_t * list event).

Definition ret {A} (a : A) : M A := fun s => Some (Done a, s, []).

Definition bind {A B} (m : M A) (k : A -> M B) : M B := fun s =>
  match m s with
  | None => None
  | Some (Exited c w, s1, t1) => Some (Exited c w, s1, t1)
  | Some (Done a, s1, t1) =>
      match k a s1 with
      | None => None
      | Some (r, s2, t2) => Some (r, s2, t1 ++ t2)
      end
  end.

Notation "x <- m ;; k" := (bind m (fun x => k))
  (at level 100, m at next level, right associativity).
Notation "m ;; k" := (bind m (fun _ => k))
  (at level 100, right associativity).

Definition get : M launcher_session_t := fun s => Some (Done s, s, []).
Definition modify (f : launcher_session_t -> launcher_session_t) : M unit :=
  fun s => Some (Done tt, f s, []).
Definition emit (e : event) : M unit := fun s => Some (Done tt, s, [e]).
Definition undefined {A} : M A := fun _ => None.
Definition exit {A} (code : Z) (site : exit_site) : M A :=
  fun s => Some (Exited code site, s, []).

Definition fprintf (f : stream) (l : log_line) : M unit := emit (EPrint f l).

(** [for (i = i0; i < i0 + n; i++) body(i)].  The loops of the launcher
    are bounded by [session->host_count], which no loop body writes. *)
Fixpoint for_loop (n : nat) (i : nat) (body : nat -> M unit) : M unit :=
  match n with
  | O => ret tt
  | S n' => body i ;; for_loop n' (S i) body
  end.

(** [session->host_info[i]] as an rvalue and as an lvalue. *)
Definition read_host_slot (i : nat) : M (option host_info_t) := fun s =>
  match host_info s !! i with
  | Some p => Some (Done p, s, [])
  | None => None
  end.

Definition write_host_slot (i : nat) (p : option host_info_t) : M unit := fun s =>
  match host_info s !! i with
  | Some _ => Some (Done tt, set_host_info (<[i := p]> (host_info s)) s, [])
  | None => None
  end.

(** [session->host_info[i]->hostname] *)
Definition host_name_at (i : nat) : M string :=
  p <- read_host_slot i ;;
  match p with
  | Some h => ret (hostname h)
  | None => undefined
  end.

Definition write_skt_conn (i : nat) (fd : Z) : M unit := fun s =>
  match skt_conns s !! i with
  | Some _ => Some (Done tt, set_skt_conns (<[i := fd]> (skt_conns s)) s, [])
  | None => None
  end.

(** ** [launcher_session_cleanup] *)

Definition cleanup_slot (i : nat) : M unit :=
  p <- read_host_slot i ;;
  (match p with
   | Some _ => emit (EFree i)
   | None => ret tt
   end) ;;
  write_host_slot i None.

Definition launcher_session_cleanup : M unit :=
  s <- get ;;
  if negb (valid s) then ret tt
  else
    modify (set_valid false) ;;
    for_loop (Z.to_nat (host_count s)) 0 cleanup_slot ;;
    emit EClientShutdown.

(** ** The callbacks *)

Definition launcher_rxmsg_callback (fd : Z) (buf : string) : M unit :=
  fprintf stdout (LogStatus buf) ;;
  modify (fun s => set_nr_ackd (int_wrap (nr_ackd s + 1)) s) ;;
  s <- get ;;
  if nr_active s <=? nr_ackd s then
    fprintf stdout LogAckAll ;;
    launcher_session_cleanup
  else ret tt.

Definition launcher_shutdown_callback (fd : Z) : M unit :=
  fprintf stderr LogPeerShutdown ;;
  if 0 <? fd then emit (EClientClose fd) else ret tt.

Section WithEnvironment.

Variable P : platform.
Variable env : environment.

(** ** [launcher_session_setup] *)

Definition setup_host (i : nat) : M unit :=
  name <- host_name_at i ;;
  match hostname_to_netaddr env i name with
  | None => ret tt
  | Some s_addr =>
      modify (fun s =>
        set_cl_params {| buf_len := buf_len (cl_params s);
                         local_port := local_port (cl_params s);
                         remote_port := remote_port (cl_params s);
                         remote_ip := ntohl env s_addr |} s) ;;
      s <- get ;;
      let fd := comlink_client_setup env i (cl_params s) in
      write_skt_conn i fd ;;
      if fd =? -1 then
        fprintf stderr (LogSetupFailed (remote_ip (cl_params s)))
      else
        modify (fun s => set_nr_active (int_wrap (nr_active s + 1)) s)
  end.

Definition launcher_session_setup : M Z :=
  modify (set_nr_ackd 0) ;;
  modify (set_nr_active 0) ;;
  modify (set_valid true) ;;
  modify (set_cl_params {| buf_len := COMLINK_BUF_SIZE;
                           local_port := COMLINK_PORT;
                           remote_port := COMLINK_PORT;
                           remote_ip := 0 |}) ;;
  s <- get ;;
  for_loop (Z.to_nat (host_count s)) 0 setup_host ;;
  ret 0.

(** ** Control messages *)

Definition fill_header (ty : msg_type) (n : Z) : comlink_header_t :=
  {| type := ty; len := n |}.

(** A send: the call is recorded and its status comes from the
    environment. *)
Definition sendto_server (fd : Z) (h : comlink_header_t) (p : payload) (n : Z)
  : M Z :=
  emit (ESend fd h p n) ;;
  ret (comlink_sendto_server env fd h p n).

Definition strlen (s : string) : Z := Z.of_nat (String.length s).

(** [len = sizeof(msg)] with [msg] of type [char *]. *)
Definition launcher_send_ctrlmsg (fd : Z) (msg : string) : M Z :=
  let len := sizeof_char_ptr P in
  let header := fill_header CTRL_MESSAGE len in
  sendto_server fd header (PStr msg) len.

(** ** [launcher_session_start]

    The loop body returns the status of the EXEC_FILENAME send, the value
    [ret] holds after the iteration. *)
Definition start_host (i : nat) : M Z :=
  name <- host_name_at i ;;
  fprintf stdout (LogHost (Z.of_nat i) name) ;;
  s <- get ;;
  let len := sizeof_int P in
  sendto_server (Z.of_nat i) (fill_header PROC_INSTANCES len)
    (PInt (instances s)) len ;;
  let len := strlen (exe_name s) in
  r <- sendto_server (Z.of_nat i) (fill_header EXEC_FILENAME len)
         (PStr (exe_name s)) len ;;
  c <- launcher_send_ctrlmsg (Z.of_nat i) "start" ;;
  (if c =? -1 then fprintf stderr LogStartFailed else ret tt) ;;
  ret r.

Fixpoint start_loop (n : nat) (i : nat) (r : Z) : M Z :=
  match n with
  | O => ret r
  | S n' => r' <- start_host i ;; start_loop n' (S i) r'
  end.

(** ** [launcher_signal_handler] *)

Definition stop_host (i : nat) : M unit :=
  launcher_send_ctrlmsg (Z.of_nat i) "stop" ;; ret tt.

Definition launcher_signal_handler : M unit :=
  fprintf stdout LogCtrlC ;;
  s <- get ;;
  for_loop (Z.to_nat (host_count s)) 0 stop_host ;;
  launcher_session_cleanup.

(** ** The wait phase

    [comlink_client_start] blocks in the event loop of the transport,
    which calls the registered callbacks; SIGINT runs the handler when
    [sigaction] installed it and ends the process otherwise.  The loop is
    given by the finite list of what it delivers before it returns, and a
    SIGINT is one of these deliveries: a signal that arrives during setup
    or dispatch, or inside a callback, and a loop that never returns are
    outside this description. *)
Definition deliver (d : inbound) : M unit :=
  match d with
  | Report fd buf => launcher_rxmsg_callback fd buf
  | PeerShutdown fd => launcher_shutdown_callback fd
  | Interrupt =>
      if sigaction_ok env then launcher_signal_handler
      else exit 130 AtSigint
  end.

Fixpoint deliver_all (ds : list inbound) : M unit :=
  match ds with
  | [] => ret tt
  | d :: ds' => deliver d ;; deliver_all ds'
  end.

Definition comlink_client_start : M unit :=
  emit EClientStart ;;
  deliver_all (deliveries env).

Definition launcher_session_start : M Z :=
  s <- get ;;
  r <- start_loop (Z.to_nat (host_count s)) 0 0 ;;
  comlink_client_start ;;
  ret r.

(** ** [parse_cmdline] *)

(** [strncmp(a, b, n) == 0] *)
Fixpoint strncmp_eq (a b : string) (n : nat) : bool :=
  match n with
  | O => true
  | S n' =>
      match a, b with
      | EmptyString, EmptyString => true
      | String x a', String y b' =>
          if Ascii.eqb x y then strncmp_eq a' b' n' else false
      | _, _ => false
      end
  end.

Definition isspace (c : ascii) : bool :=
  let n := nat_of_ascii c in
  (Nat.eqb n 32 || (Nat.leb 9 n && Nat.leb n 13))%bool.

Definition isdigit (c : ascii) : bool :=
  let n := nat_of_ascii c in (Nat.leb 48 n && Nat.leb n 57)%bool.

Fixpoint skip_spaces (s : string) : string :=
  match s with
  | String c r => if isspace c then skip_spaces r else s
  | EmptyString => s
  end.

Fixpoint digits_value (acc : Z) (s : string) : Z :=
  match s with
  | String c r =>
      if isdigit c
      then digits_value (10 * acc + (Z.of_nat (nat_of_ascii c) - 48)) r
      else acc
  | EmptyString => acc
  end.

(** [atoi]: leading white space, an optional sign, decimal digits.  C
    leaves the result undefined when the numeral is not representable in
    an [int]; the wrap-around written here stands in for that case only,
    and what is proved about the stored count assumes a representable
    numeral or uses one. *)
Definition atoi (s : string) : Z :=
  match skip_spaces s with
  | String "-" r => int_wrap (- digits_value 0 r)
  | String "+" r => int_wrap (digits_value 0 r)
  | r => int_wrap (digits_value 0 r)
  end.

(** [strcpy] into an array of [cap] bytes: the string and its terminator
    must fit. *)
Definition strcpy (cap : nat) (set : string -> launcher_session_t -> launcher_session_t)
    (src : string) : M unit :=
  if Nat.ltb (String.length src) cap then modify (set src) else undefined.

Definition arg (argv : list string) (i : nat) : M string :=
  match argv !! i with
  | Some a => ret a
  | None => undefined
  end.

Definition usage (program : string) : M Z :=
  fprintf stderr (LogUsage program) ;; ret 0.

Definition parse_cmdline (argv : list string) : M Z :=
  if Z.of_nat (length argv) <? MAX_CMD_ARGS then
    a0 <- arg argv 0 ;;
    usage a0 ;;
    ret (-1)
  else
    a1 <- arg argv 1 ;;
    a2 <- arg argv 2 ;;
    (if strncmp_eq a1 "-np" 3 then modify (set_instances (atoi a2))
     else ret tt) ;;
    a3 <- arg argv 3 ;;
    a4 <- arg argv 4 ;;
    (if strncmp_eq a3 "-hostfile" 9
     then strcpy (HOST_FILE_SIZE P) set_host_file a4
     else ret tt) ;;
    a5 <- arg argv 5 ;;
    strcpy (EXE_NAME_SIZE P) set_exe_name a5 ;;
    s <- get ;;
    if ((instances s <? 0) && (MAX_INSTANCES <? instances s)
        || strncmp_eq (host_file s) EmptyString 1
        || strncmp_eq (exe_name s) EmptyString 1)%bool
    then ret (-1)
    else
      fprintf stdout (LogCmdline (instances s) (host_file s) (exe_name s)) ;;
      ret 0.

(** ** [alloc_host_entry] and [parse_hostfile] *)

Definition slot_index (z : Z) : M nat :=
  if z <? 0 then undefined else ret (Z.to_nat z).

(** The [j]-th call of [malloc]; the fresh entry has no contents yet. *)
Definition alloc_host_entry (j : nat) (host_index : Z) : M Z :=
  i <- slot_index host_index ;;
  if malloc_ok env j then
    write_host_slot i (Some {| hostname := EmptyString |}) ;;
    ret 0
  else
    write_host_slot i None ;;
    fprintf stderr LogAllocError ;;
    ret (-1).

Definition newline : ascii := ascii_of_nat 10.
Definition nul : ascii := ascii_of_nat 0.

(** [fgets(buffer, n, fp)]: at most [n - 1] characters, up to and
    including the first newline; NULL at the end of the file. *)
Fixpoint fgets_chars (k : nat) (inp : string) : string * string :=
  match k, inp with
  | S k', String c rest =>
      if Ascii.eqb c newline then (String c EmptyString, rest)
      else let '(l, r) := fgets_chars k' rest in (String c l, r)
  | _, _ => (EmptyString, inp)
  end.

Definition fgets (n : nat) (inp : string) : option (string * string) :=
  match inp with
  | EmptyString => None
  | _ => Some (fgets_chars (n - 1) inp)
  end.

(** The characters of a buffer that [strcpy] and [%s] see. *)
Fixpoint c_str (s : string) : string :=
  match s with
  | String c r => if Ascii.eqb c nul then EmptyString else String c (c_str r)
  | EmptyString => EmptyString
  end.

Definition store_hostname (i : nat) (buffer : string) : M unit :=
  p <- read_host_slot i ;;
  match p with
  | Some _ => write_host_slot i (Some {| hostname := c_str buffer |})
  | None => undefined
  end.

(** The body of the [while (fgets(...))] loop for the [j]-th buffer. *)
Definition read_host_line (j : nat) (buffer : string) : M unit :=
  s <- get ;;
  status <- alloc_host_entry j (host_count s) ;;
  if status =? 0 then
    s <- get ;;
    count <- slot_index (host_count s) ;;
    store_hostname count buffer ;;
    name <- host_name_at count ;;
    fprintf stdout (LogHostName name) ;;
    modify (fun s => set_host_count (int_wrap (host_count s + 1)) s)
  else ret tt.

(** The loop; [j] counts the buffers read so far.  One unit of fuel per
    iteration; every iteration consumes input when the buffer holds at
    least one character besides the terminator. *)
Fixpoint read_hosts (fuel : nat) (j : nat) (fp : string) : M unit :=
  match fgets (MAX_HOSTNAME_LEN P) fp with
  | None => ret tt
  | Some (buffer, fp') =>
      match fuel with
      | O => undefined
      | S fuel' =>
          read_host_line j buffer ;;
          read_hosts fuel' (S j) fp'
      end
  end.

Definition parse_hostfile (file : string) : M Z :=
  match fopen env file with
  | None =>
      fprintf stderr (LogHostfileError file) ;;
      exit 2 AtHostfileOpen
  | Some contents =>
      modify (set_host_count 0) ;;
      read_hosts (String.length contents) 0 contents ;;
      s <- get ;;
      ret (host_count s)
  end.

(** ** [main] *)

Definition main (argv : list string) : M Z :=
  r <- parse_cmdline argv ;;
  (if r =? -1 then fprintf stderr LogInvalidOptions ;; exit 2 AtInvalidOptions
   else ret tt) ;;
  s <- get ;;
  n <- parse_hostfile (host_file s) ;;
  (if n <=? 0 then fprintf stderr LogNoHosts ;; exit 2 AtNoHosts
   else ret tt) ;;
  r <- launcher_session_setup ;;
  (if negb (r =? 0) then exit 2 AtSetupFailed else ret tt) ;;
  (if sigaction_ok env then ret tt else fprintf stdout LogUnstable) ;;
  launcher_session_start ;;
  launcher_session_cleanup ;;
  ret 0.

End WithEnvironment.

(** The session as the loader leaves it: static storage is zeroed. *)
Definition launcher_session (P : platform) : launcher_session_t :=
  {| instances := 0; host_file := EmptyString; exe_name := EmptyString;
     host_count := 0;
     host_info := replicate (MAX_HOSTS P) None;
     skt_conns := replicate (MAX_HOSTS P) 0;
     nr_active := 0; nr_ackd := 0; valid := false;
     cl_params := {| buf_len := 0; local_port := 0; remote_port := 0;
                     remote_ip := 0 |} |}.

(** * Vocabulary of the statements *)

Section Vocabulary.

Variable P : platform.
Variable env : environment.

(** The slots [i .. i+n-1] set to NULL, and the [free] calls made on the
    way: one for each of those slots that held an entry. *)
Fixpoint clear_slots (i n : nat) (hi : list (option host_info_t))
  : list (option host_info_t) :=
  match n with
  | O => hi
  | S n' => clear_slots (S i) n' (<[i := None]> hi)
  end.

Definition free_of (hi : list (option host_info_t)) (j : nat) : list event :=
  match hi !! j with
  | Some (Some _) => [EFree j]
  | _ => []
  end.

Fixpoint freed (hi : list (option host_info_t)) (i n : nat) : list event :=
  match n with
  | O => []
  | S n' => free_of hi i ++ freed hi (S i) n'
  end.

(** The events that release resources. *)
Definition is_teardown (e : event) : bool :=
  match e with
  | EFree _ | EClientShutdown => true
  | _ => false
  end.

Definition teardown_work (t : list event) : list event :=
  List.filter is_teardown t.

(** The two ways a teardown is requested: a direct call of
    [launcher_session_cleanup] (from the receive callback or at the end of
    [main]) and the SIGINT handler. *)
Inductive teardown_path : Type := ByCompletion | ByInterrupt.

Definition ctrl_send (fd : Z) (msg : string) : event :=
  ESend fd {| type := CTRL_MESSAGE; len := sizeof_char_ptr P |}
    (PStr msg) (sizeof_char_ptr P).

Definition stops (i n : nat) : list event :=
  map (fun j => ctrl_send (Z.of_nat j) "stop") (seq i n).

Definition teardown (p : teardown_path) : M unit :=
  match p with
  | ByCompletion => launcher_session_cleanup
  | ByInterrupt => launcher_signal_handler P env
  end.

(** A run of the receive callback over a sequence of inbound reports. *)
Fixpoint status_reports (rs : list (Z * string)) : M unit :=
  match rs with
  | [] => ret tt
  | (fd, buf) :: rs' => launcher_rxmsg_callback fd buf ;; status_reports rs'
  end.

(** Whether a trace contains the shutdown of the transport, the last step
    of a teardown that does its work. *)
Definition cleanup_ran (t : list event) : bool :=
  existsb (fun e => match e with EClientShutdown => true | _ => false end) t.

(** The part of a session that a teardown needs in order to run. *)
Definition slots_in_range (s : launcher_session_t) : Prop :=
  (Z.to_nat (host_count s) <= length (host_info s))%nat.

(** [preserves I m]: every terminating run of [m] from a session in [I]
    ends in a session in [I]. *)
Definition preserves {A} (I : launcher_session_t -> Prop) (m : M A) : Prop :=
  forall s r s' t, I s -> m s = Some (r, s', t) -> I s'.

(** [transforms I I' m]: every run of [m] that returns normally from a
    session in [I] ends in a session in [I']. *)
Definition transforms {A} (I I' : launcher_session_t -> Prop) (m : M A) : Prop :=
  forall s a s' t, I s -> m s = Some (Done a, s', t) -> I' s'.

(** The counters and the flag, which the array updates leave alone. *)
Definition counters (s : launcher_session_t) : Z * Z * bool :=
  (nr_active s, nr_ackd s, valid s).

(** The session as [launcher_session_setup] leaves it before its loop. *)
Definition setup_init (s : launcher_session_t) : launcher_session_t :=
  set_cl_params {| buf_len := COMLINK_BUF_SIZE; local_port := COMLINK_PORT;
                   remote_port := COMLINK_PORT; remote_ip := 0 |}
    (set_valid true (set_nr_active 0 (set_nr_ackd 0 s))).

(** What holds of the counters from setup on. *)
Definition ack_inv (s : launcher_session_t) : Prop :=
  in_int (nr_active s) /\ in_int (nr_ackd s) /\
  (valid s = true -> nr_ackd s <= nr_active s).

(** The counters while the setup loop is about to handle slot [j]. *)
Definition setup_inv (j : nat) (x : launcher_session_t) : Prop :=
  0 <= nr_active x <= Z.of_nat j /\ nr_ackd x = 0 /\ valid x = true.

(** The sessions that the operations of the launcher produce: setup from
    any session, then dispatch, deliveries of the event loop (status
    reports, peer shutdowns, interrupts) and cleanup in any order. *)
Inductive reachable : launcher_session_t -> Prop :=
| reach_setup env s0 r s t :
    in_int (host_count s0) ->
    launcher_session_setup env s0 = Some (Done r, s, t) -> reachable s
| reach_dispatch env s r s' t :
    reachable s ->
    start_loop P env (Z.to_nat (host_count s)) 0 0 s = Some (r, s', t) ->
    reachable s'
| reach_deliver env d s r s' t :
    reachable s -> deliver P env d s = Some (r, s', t) -> reachable s'
| reach_cleanup s r s' t :
    reachable s -> launcher_session_cleanup s = Some (r, s', t) -> reachable s'.

Definition setup_params (ip : Z) : comlink_params_t :=
  {| buf_len := COMLINK_BUF_SIZE; local_port := COMLINK_PORT;
     remote_port := COMLINK_PORT; remote_ip := ip |}.

(** The address the resolver gives for slot [i], in host byte order. *)
Definition resolved_ip (env : environment) (hi : list (option host_info_t))
    (i : nat) : option Z :=
  match hi !! i with
  | Some (Some h) => ntohl env <$> hostname_to_netaddr env i (hostname h)
  | _ => None
  end.

(** What [comlink_client_setup] returns for slot [i]; [None] when the
    name does not resolve and no connection is attempted. *)
Definition connect_result (env : environment) (hi : list (option host_info_t))
    (i : nat) : option Z :=
  (fun ip => comlink_client_setup env i (setup_params ip)) <$> resolved_ip env hi i.

(** The transport connect succeeded for slot [i]. *)
Definition connected (env : environment) (hi : list (option host_info_t))
    (i : nat) : bool :=
  match connect_result env hi i with
  | Some fd => negb (fd =? -1)
  | None => false
  end.

Definition count_connected (env : environment) (hi : list (option host_info_t))
    (i n : nat) : nat :=
  length (List.filter (connected env hi) (seq i n)).

(** The diagnostic of slot [i]: one line when the connect was attempted
    and failed. *)
Definition setup_log_of (env : environment) (hi : list (option host_info_t))
    (i : nat) : list event :=
  match resolved_ip env hi i with
  | Some ip =>
      if comlink_client_setup env i (setup_params ip) =? -1
      then [EPrint stderr (LogSetupFailed ip)] else []
  | None => []
  end.

Definition setup_log (env : environment) (hi : list (option host_info_t))
    (i n : nat) : list event :=
  flat_map (setup_log_of env hi) (seq i n).

(** Every slot below [host_count] holds an entry and has a connection
    slot: the state [parse_hostfile] leaves when the hosts fit. *)
Definition session_ready (s : launcher_session_t) : bool :=
  (forallb (fun i => match host_info s !! i with
                     | Some (Some _) => true
                     | _ => false
                     end) (seq 0 (Z.to_nat (host_count s)))
   && (Z.to_nat (host_count s) <=? length (skt_conns s))%nat
   && (host_count s <=? INT_MAX))%bool.

(** [exits_avoid w m]: no run of [m] ends the process at site [w]. *)
Definition exits_avoid {A} (w : exit_site) (m : M A) : Prop :=
  forall s c s' t, m s <> Some (Exited c w, s', t).

(** [returns_only Q m]: every value [m] returns satisfies [Q]. *)
Definition returns_only {A} (Q : A -> Prop) (m : M A) : Prop :=
  forall s a s' t, m s = Some (Done a, s', t) -> Q a.

(** The three messages of slot [i], addressed by the slot index. *)
Definition dispatch_messages (s : launcher_session_t) (i : nat) : list event :=
  [ ESend (Z.of_nat i) {| type := PROC_INSTANCES; len := sizeof_int P |}
      (PInt (instances s)) (sizeof_int P);
    ESend (Z.of_nat i) {| type := EXEC_FILENAME; len := strlen (exe_name s) |}
      (PStr (exe_name s)) (strlen (exe_name s));
    ctrl_send (Z.of_nat i) "start" ].

(** The status the transport gives for the start command of slot [i]. *)
Definition start_status (i : nat) : Z :=
  comlink_sendto_server env (Z.of_nat i)
    {| type := CTRL_MESSAGE; len := sizeof_char_ptr P |} (PStr "start")
    (sizeof_char_ptr P).

Definition dispatch_trace_of (s : launcher_session_t) (i : nat) : list event :=
  match host_info s !! i with
  | Some (Some h) =>
      EPrint stdout (LogHost (Z.of_nat i) (hostname h))
        :: dispatch_messages s i
        ++ (if start_status i =? -1 then [EPrint stderr LogStartFailed] else [])
  | _ => []
  end.

Definition dispatch_trace (s : launcher_session_t) (i n : nat) : list event :=
  flat_map (dispatch_trace_of s) (seq i n).

Definition is_send (e : event) : bool :=
  match e with
  | ESend _ _ _ _ => true
  | _ => false
  end.

Definition sent_to (fd : Z) (e : event) : bool :=
  match e with
  | ESend fd' _ _ _ => fd' =? fd
  | _ => false
  end.

(** The buffers that successive [fgets] calls return on a file. *)
Fixpoint file_chunks (fuel n : nat) (fp : string) : list string :=
  match fgets n fp with
  | None => []
  | Some (b, fp') =>
      match fuel with
      | O => []
      | S fuel' => b :: file_chunks fuel' n fp'
      end
  end.

(** The buffers for which [malloc] succeeded, [j] being the number of the
    first one, and the lines printed while reading. *)
Fixpoint stored (env : environment) (j : nat) (bs : list string) : list string :=
  match bs with
  | [] => []
  | b :: bs' => (if malloc_ok env j then [b] else []) ++ stored env (S j) bs'
  end.

Fixpoint hostfile_log (env : environment) (j : nat) (bs : list string)
  : list event :=
  match bs with
  | [] => []
  | b :: bs' =>
      (if malloc_ok env j then EPrint stdout (LogHostName (c_str b))
       else EPrint stderr LogAllocError) :: hostfile_log env (S j) bs'
  end.

End Vocabulary.

(** * Vocabulary of the further properties *)

Definition is_print (e : event) : bool :=
  match e with
  | EPrint _ _ => true
  | _ => false
  end.

Definition is_shutdown (e : event) : bool :=
  match e with
  | EClientShutdown => true
  | _ => false
  end.

(** What a peer shutdown prints and closes. *)
Definition peer_shutdown_trace (fd : Z) : list event :=
  EPrint stderr LogPeerShutdown :: (if 0 <? fd then [EClientClose fd] else []).

(** The status the transport gives for the EXEC_FILENAME message of slot
    [i]. *)
Definition exec_status (env : environment) (s : launcher_session_t) (i : nat) : Z :=
  comlink_sendto_server env (Z.of_nat i)
    {| type := EXEC_FILENAME; len := strlen (exe_name s) |}
    (PStr (exe_name s)) (strlen (exe_name s)).

(** The integer a numeral denotes: leading white space, an optional sign,
    decimal digits. *)
Definition numeral_value (x : string) : Z :=
  match skip_spaces x with
  | String "-" r => - digits_value 0 r
  | String "+" r => digits_value 0 r
  | r => digits_value 0 r
  end.

(** The session [parse_cmdline] leaves for the arguments [a1 .. a5]: the
    two options are recognised by their first characters. *)
Definition cmdline_session (a1 a2 a3 a4 a5 : string) (s : launcher_session_t)
  : launcher_session_t :=
  let s1 := if String.prefix "-np" a1
            then set_instances (numeral_value a2) s else s in
  let s2 := if String.prefix "-hostfile" a3 then set_host_file a4 s1 else s1 in
  set_exe_name a5 s2.

Definition is_empty (x : string) : bool :=
  match x with
  | EmptyString => true
  | String _ _ => false
  end.

Fixpoint has_newline (x : string) : bool :=
  match x with
  | EmptyString => false
  | String c r => (Ascii.eqb c newline || has_newline r)%bool
  end.

(** A text file: the lines [ls], each followed by a newline, and then
    [last], which is empty when the file ends in a newline. *)
Fixpoint unlines (ls : list string) (last : string) : string :=
  match ls with
  | [] => last
  | l :: ls' => (l +:+ String newline (unlines ls' last))%string
  end.

(** A line that one [fgets] into a buffer of [n] bytes reads whole, with
    its newline; a last line that it reads whole. *)
Definition line_fits (n : nat) (l : string) : bool :=
  (negb (has_newline l) && (String.length l + 2 <=? n)%nat)%bool.

Definition last_fits (n : nat) (l : string) : bool :=
  (negb (has_newline l) && (String.length l + 1 <=? n)%nat)%bool.

(** The names stored for such a file: every line with its newline, then
    the last line if there is one. *)
Definition names_of (ls : list string) (last : string) : list string :=
  map (fun l => (l +:+ String newline EmptyString)%string) ls
    ++ (if is_empty last then [] else [last]).

(** [emits_only Q m]: every event of every run of [m] satisfies [Q]. *)
Definition emits_only {A} (Q : event -> Prop) (m : M A) : Prop :=
  forall s r s' t, m s = Some (r, s', t) -> Forall Q t.

(** The messages of the control protocol as the launcher forms them: the
    byte count handed to the transport is the length field of the header;
    an instance count has the size of the field, an executable name its
    length without the terminator, a command the size of a pointer; the
    destination is a slot index. *)
Definition protocol_message (P : platform) (e : event) : Prop :=
  match e with
  | ESend fd h p n =>
      len h = n /\ 0 <= fd /\
      match type h, p with
      | PROC_INSTANCES, PInt _ => n = sizeof_int P
      | EXEC_FILENAME, PStr x => n = strlen x
      | CTRL_MESSAGE, PStr c =>
          n = sizeof_char_ptr P /\ (c = "start" \/ c = "stop")
      | _, _ => False
      end
  | _ => True
  end.

Definition printed (e : event) : Prop := is_print e = true.

(** The diagnostic that goes with each [exit] of the program. *)
Definition exit_diagnostic (w : exit_site) (l : log_line) : Prop :=
  match w with
  | AtInvalidOptions => l = LogInvalidOptions
  | AtHostfileOpen => exists file, l = LogHostfileError file
  | AtNoHosts => l = LogNoHosts
  | AtSetupFailed | AtSigint => False
  end.

(** A trace in which one teardown did its work: some entries freed, no
    entry twice, and then the transport shut down. *)
Definition one_teardown (t : list event) : Prop :=
  exists frees,
    teardown_work t = frees ++ [EClientShutdown] /\
    NoDup frees /\ Forall (fun e => exists j, e = EFree j) frees.

Definition no_teardown (e : event) : Prop := is_teardown e = false.

(** What a step of the wait phase may contribute to the teardown: nothing
    while the session stays valid and nothing once it is cleaned up; one
    whole teardown when the step cleans it up. *)
Definition teardown_step (s s' : launcher_session_t) (t : list event) : Prop :=
  slots_in_range s' /\
  if valid s
  then (if valid s' then teardown_work t = [] else one_teardown t)
  else valid s' = false /\ teardown_work t = [].

(** No SIGINT among what the event loop delivers. *)
Definition is_interrupt (d : inbound) : bool :=
  match d with
  | Interrupt => true
  | _ => false
  end.

Definition no_interrupt (ds : list inbound) : bool :=
  forallb (fun d => negb (is_interrupt d)) ds.

(** * Concrete platforms, environments and sessions *)

(** A 64-bit platform with 64-byte host names and 100 host slots. *)
Definition lp64 : platform :=
  {| sizeof_char_ptr := 8; sizeof_int := 4; MAX_HOSTNAME_LEN := 64;
     MAX_HOSTS := 100; HOST_FILE_SIZE := 256; EXE_NAME_SIZE := 256 |}.

(** An environment in which every name resolves and [malloc] succeeds;
    the handle of each connect, the status of each send, the contents of
    the host file and the deliveries of the event loop are given. *)
Definition sample_env (connect : nat -> Z)
    (send : Z -> comlink_header_t -> payload -> Z -> Z)
    (hosts : string) (ds : list inbound) : environment :=
  {| hostname_to_netaddr := fun i _ => Some (167772161 + Z.of_nat i);
     ntohl := fun a => a;
     comlink_client_setup := fun i _ => connect i;
     comlink_sendto_server := send;
     malloc_ok := fun _ => true;
     fopen := fun _ => Some hosts;
     sigaction_ok := true;
     deliveries := ds |}.

Definition send_ok : Z -> comlink_header_t -> payload -> Z -> Z :=
  fun _ _ _ _ => 0.

(** The start command to slot 1 fails, every other send succeeds. *)
Definition send_start_fails_1 : Z -> comlink_header_t -> payload -> Z -> Z :=
  fun fd h _ _ =>
    match type h with
    | CTRL_MESSAGE => if fd =? 1 then -1 else 0
    | _ => 0
    end.

Definition nl : string := String newline EmptyString.

(** Sessions as [parse_cmdline] and [parse_hostfile] leave them, with one
    and with two hosts, in arrays of four slots. *)
Definition one_host : launcher_session_t :=
  {| instances := 4; host_file := "hosts"; exe_name := "/bin/app";
     host_count := 1;
     host_info := [Some {| hostname := "alpha" +:+ nl |}; None; None; None];
     skt_conns := [0; 0; 0; 0];
     nr_active := 0; nr_ackd := 0; valid := false;
     cl_params := {| buf_len := 0; local_port := 0; remote_port := 0;
                     remote_ip := 0 |} |}.

Definition two_hosts : launcher_session_t :=
  {| instances := 4; host_file := "hosts"; exe_name := "/bin/app";
     host_count := 2;
     host_info := [Some {| hostname := "alpha" +:+ nl |};
                   Some {| hostname := "beta" +:+ nl |}; None; None];
     skt_conns := [0; 0; 0; 0];
     nr_active := 0; nr_ackd := 0; valid := false;
     cl_params := {| buf_len := 0; local_port := 0; remote_port := 0;
                     remote_ip := 0 |} |}.

(** [two_hosts] after a setup in which both connects succeeded. *)
Definition two_connected : launcher_session_t :=
  set_cl_params (setup_params 167772162)
    (set_skt_conns [5; 6; 0; 0]
       (set_nr_active 2 (set_valid true two_hosts))).

Definition env_all_connect : environment :=
  sample_env (fun i => 5 + Z.of_nat i) send_ok ("alpha" +:+ nl) [].

Definition env_none_connect : environment :=
  sample_env (fun _ => -1) send_ok ("alpha" +:+ nl) [].

(** Slot 0 fails to connect, slot 1 gets handle 7. *)
Definition env_second_connects : environment :=
  sample_env (fun i => if Nat.eqb i 1 then 7 else -1) send_ok
    ("alpha" +:+ nl +:+ "beta" +:+ nl) [].

Definition env_start_fails : environment :=
  sample_env (fun i => 5 + Z.of_nat i) send_start_fails_1
    ("alpha" +:+ nl +:+ "beta" +:+ nl) [].

(** A host file whose only line has 80 characters before the newline. *)
Definition long_name : string :=
  "node-0001.rack-0002.row-0003.hall-0004.site-0005.region-0006.example-cluster.org".

Definition env_long_line : environment :=
  sample_env (fun i => 5 + Z.of_nat i) send_ok (long_name +:+ nl) [].

(** A platform with 16-byte path buffers. *)
Definition small_buffers : platform :=
  {| sizeof_char_ptr := 8; sizeof_int := 4; MAX_HOSTNAME_LEN := 64;
     MAX_HOSTS := 100; HOST_FILE_SIZE := 16; EXE_NAME_SIZE := 16 |}.

Definition argv_ok : list string :=
  ["launcher"; "-np"; "4"; "-hostfile"; "hosts"; "/bin/app"].

(** A host file with a blank second line and no newline after the last
    line; an empty host file. *)
Definition env_blank_line : environment :=
  sample_env (fun i => 5 + Z.of_nat i) send_ok
    (unlines ["alpha"; EmptyString] "beta") [].

Definition env_empty_file : environment :=
  sample_env (fun i => 5 + Z.of_nat i) send_ok EmptyString [].

(** One host; it reports, its peer shuts down, and then SIGINT arrives. *)
Definition env_busy_wait : environment :=
  sample_env (fun i => 5 + Z.of_nat i) send_ok ("alpha" +:+ nl)
    [Report 5 "exit 0"; PeerShutdown 5; Interrupt].

(** The name of slot 0 does not resolve; slot 1 resolves and connects. *)
Definition env_first_unresolved : environment :=
  {| hostname_to_netaddr :=
       fun i _ => if Nat.eqb i 0 then None else Some (167772161 + Z.of_nat i);
     ntohl := fun a => a;
     comlink_client_setup := fun i _ => 5 + Z.of_nat i;
     comlink_sendto_server := send_ok;
     malloc_ok := fun _ => true;
     fopen := fun _ => Some ("alpha" +:+ nl +:+ "beta" +:+ nl);
     sigaction_ok := true;
     deliveries := [] |}.

(** One host; it reports and then its peer shuts down.  No SIGINT. *)
Definition env_report_then_shutdown : environment :=
  sample_env (fun i => 5 + Z.of_nat i) send_ok ("alpha" +:+ nl)
    [Report 5 "exit 0"; PeerShutdown 5].

(** * Properties *)

(** ** Arithmetic of [int] *)

Lemma int_wrap_id z : in_int z -> int_wrap z = z.
Proof.
  unfold in_int, INT_MIN, INT_MAX, int_wrap. intros Hz.
  rewrite Z.mod_small by lia. lia.
Qed.

Lemma int_wrap_in_int z : in_int (int_wrap z).
Proof.
  unfold in_int, INT_MIN, INT_MAX, int_wrap.
  pose proof (Z.mod_pos_bound (z + 2 ^ 31) (2 ^ 32) ltac:(lia)). lia.
Qed.

Lemma int_wrap_succ_neq z : in_int z -> int_wrap (z + 1) <> z.
Proof.
  intros Hz. destruct (Z.eq_dec z INT_MAX) as [->|Hne].
  - vm_compute. discriminate.
  - rewrite int_wrap_id; [lia|]. unfold in_int, INT_MIN, INT_MAX in *. lia.
Qed.

(** ** Closed forms of the teardown loop *)

Lemma length_clear_slots n : forall i hi,
  length (clear_slots i n hi) = length hi.
Proof.
  induction n as [|n IH]; intros i hi; simpl; [done|].
  by rewrite IH, length_insert.
Qed.

Lemma freed_insert_below n : forall i j (hi : list (option host_info_t)) p,
  (j < i)%nat -> freed (<[j := p]> hi) i n = freed hi i n.
Proof.
  induction n as [|n IH]; intros i j hi p Hlt; simpl; [done|].
  unfold free_of. rewrite list_lookup_insert_ne by lia.
  by rewrite IH by lia.
Qed.

Lemma clear_slots_lookup n : forall i (hi : list (option host_info_t)) j,
  (i <= j < i + n)%nat -> (j < length hi)%nat ->
  clear_slots i n hi !! j = Some None.
Proof.
  induction n as [|n IH]; intros i hi j Hj Hlen; simpl; [lia|].
  destruct (decide (j = i)) as [->|Hne].
  - assert (Hkeep : forall m k (l : list (option host_info_t)),
              (i < k)%nat -> l !! i = Some None ->
              clear_slots k m l !! i = Some None).
    { clear. induction m as [|m IHm]; intros k l Hk Hl; simpl; [done|].
      apply IHm; [lia|]. by rewrite list_lookup_insert_ne by lia. }
    apply Hkeep; [lia|]. by rewrite list_lookup_insert_eq.
  - apply IH; [lia|]. by rewrite length_insert.
Qed.

Lemma clear_slots_lookup_other n : forall i (hi : list (option host_info_t)) j,
  ~ (i <= j < i + n)%nat -> clear_slots i n hi !! j = hi !! j.
Proof.
  induction n as [|n IH]; intros i hi j Hj; simpl; [done|].
  rewrite IH by lia. by rewrite list_lookup_insert_ne by lia.
Qed.

Lemma freed_clear_slots n : forall i (hi : list (option host_info_t)),
  (i + n <= length hi)%nat -> freed (clear_slots i n hi) i n = [].
Proof.
  intros i hi Hlen.
  assert (H : forall m k, (i <= k)%nat -> (k + m <= i + n)%nat ->
            freed (clear_slots i n hi) k m = []).
  { induction m as [|m IHm]; intros k Hk Hkm; simpl; [done|].
    unfold free_of. rewrite clear_slots_lookup by lia.
    simpl. apply IHm; lia. }
  apply H; lia.
Qed.

(** ** What the teardown does *)

Lemma cleanup_loop_spec n : forall i s,
  (i + n <= length (host_info s))%nat ->
  for_loop n i cleanup_slot s =
    Some (Done tt, set_host_info (clear_slots i n (host_info s)) s,
          freed (host_info s) i n).
Proof.
  induction n as [|n IH]; intros i s Hlen.
  - destruct s; reflexivity.
  - destruct (lookup_lt_is_Some_2 (host_info s) i ltac:(lia)) as [p Hp].
    simpl. unfold bind at 1.
    assert (Hslot : cleanup_slot i s =
              Some (Done tt, set_host_info (<[i := None]> (host_info s)) s,
                    free_of (host_info s) i)).
    { unfold cleanup_slot, bind, read_host_slot, write_host_slot, free_of.
      rewrite Hp. destruct p; simpl; rewrite Hp; reflexivity. }
    rewrite Hslot, IH by (simpl; rewrite length_insert; lia).
    simpl. rewrite freed_insert_below by lia. destruct s; reflexivity.
Qed.

Lemma cleanup_invalid s :
  valid s = false -> launcher_session_cleanup s = Some (Done tt, s, []).
Proof.
  intros Hv. unfold launcher_session_cleanup, bind, get. rewrite Hv. reflexivity.
Qed.

Lemma cleanup_valid s :
  valid s = true ->
  (Z.to_nat (host_count s) <= length (host_info s))%nat ->
  launcher_session_cleanup s =
    Some (Done tt,
          set_host_info (clear_slots 0 (Z.to_nat (host_count s)) (host_info s))
            (set_valid false s),
          freed (host_info s) 0 (Z.to_nat (host_count s)) ++ [EClientShutdown]).
Proof.
  intros Hv Hlen. unfold launcher_session_cleanup, bind, get, modify, emit.
  rewrite Hv. simpl.
  rewrite cleanup_loop_spec by (simpl; lia). destruct s; reflexivity.
Qed.

Lemma teardown_work_app t1 t2 :
  teardown_work (t1 ++ t2) = teardown_work t1 ++ teardown_work t2.
Proof. apply List.filter_app. Qed.

Lemma teardown_work_freed hi n : forall i,
  teardown_work (freed hi i n) = freed hi i n.
Proof.
  induction n as [|n IH]; intros i; simpl; [done|].
  rewrite teardown_work_app, IH. f_equal.
  unfold free_of. by destruct (hi !! i) as [[?|]|].
Qed.

Section Teardown.

Variable P : platform.
Variable env : environment.

Lemma send_ctrlmsg_spec fd msg s :
  launcher_send_ctrlmsg P env fd msg s =
    Some (Done (comlink_sendto_server env fd
                  {| type := CTRL_MESSAGE; len := sizeof_char_ptr P |}
                  (PStr msg) (sizeof_char_ptr P)),
          s, [ctrl_send P fd msg]).
Proof. reflexivity. Qed.

Lemma stop_loop_spec n : forall i s,
  for_loop n i (stop_host P env) s = Some (Done tt, s, stops P i n).
Proof.
  induction n as [|n IH]; intros i s; [reflexivity|].
  simpl. unfold bind at 1. unfold stop_host at 1, bind at 1.
  rewrite send_ctrlmsg_spec. simpl. rewrite IH. reflexivity.
Qed.

Lemma teardown_work_stops n : forall i, teardown_work (stops P i n) = [].
Proof. induction n as [|n IH]; intros i; simpl; [done|]. apply IH. Qed.

Lemma signal_handler_spec s :
  launcher_signal_handler P env s =
    match launcher_session_cleanup s with
    | Some (r, s', t) =>
        Some (r, s',
              EPrint stdout LogCtrlC :: stops P 0 (Z.to_nat (host_count s)) ++ t)
    | None => None
    end.
Proof.
  unfold launcher_signal_handler, bind at 1, fprintf, emit.
  unfold bind at 1, get. unfold bind at 1. rewrite stop_loop_spec.
  destruct (launcher_session_cleanup s) as [[[r s'] t]|]; reflexivity.
Qed.

Lemma rxmsg_callback_spec fd buf s :
  launcher_rxmsg_callback fd buf s =
    let s1 := set_nr_ackd (int_wrap (nr_ackd s + 1)) s in
    if nr_active s <=? nr_ackd s1 then
      match launcher_session_cleanup s1 with
      | Some (r, s2, t) =>
          Some (r, s2,
                EPrint stdout (LogStatus buf) :: EPrint stdout LogAckAll :: t)
      | None => None
      end
    else Some (Done tt, s1, [EPrint stdout (LogStatus buf)]).
Proof.
  unfold launcher_rxmsg_callback, bind at 1, fprintf, emit.
  unfold bind at 1, modify. unfold bind at 1, get. simpl.
  destruct (nr_active s <=? int_wrap (nr_ackd s + 1)); [|reflexivity].
  unfold bind.
  destruct (launcher_session_cleanup _) as [[[r s'] t]|]; reflexivity.
Qed.

End Teardown.

Section AfterTeardown.

Variable P : platform.
Variable env : environment.

Lemma teardown_invalid p s :
  valid s = false ->
  exists t, teardown P env p s = Some (Done tt, s, t) /\ teardown_work t = [].
Proof.
  intros Hv. destruct p; simpl.
  - exists []. by rewrite cleanup_invalid.
  - rewrite signal_handler_spec, cleanup_invalid by done.
    eexists; split; [reflexivity|].
    simpl. by rewrite app_nil_r, teardown_work_stops.
Qed.

Lemma deliver_invalid d s :
  valid s = false ->
  exists r s' t,
    deliver P env d s = Some (r, s', t) /\ valid s' = false /\
    teardown_work t = [] /\ host_info s' = host_info s /\
    nr_active s' = nr_active s.
Proof.
  intros Hv. destruct d as [fd buf|fd|]; simpl.
  - rewrite rxmsg_callback_spec. cbv zeta.
    destruct (nr_active s <=? _).
    + rewrite cleanup_invalid by done. by eexists _, _, _.
    + by eexists _, _, _.
  - unfold launcher_shutdown_callback, bind, fprintf, emit.
    destruct (0 <? fd); by eexists _, _, _.
  - destruct (sigaction_ok env).
    + destruct (teardown_invalid ByInterrupt s Hv) as (t & Ht & Hw).
      simpl in Ht. rewrite Ht. by eexists _, _, _.
    + by eexists _, _, _.
Qed.

Lemma deliver_all_invalid ds : forall s,
  valid s = false ->
  exists r s' t,
    deliver_all P env ds s = Some (r, s', t) /\ valid s' = false /\
    teardown_work t = [] /\ host_info s' = host_info s /\
    nr_active s' = nr_active s.
Proof.
  induction ds as [|d ds IH]; intros s Hv; simpl.
  - by eexists _, _, _.
  - destruct (deliver_invalid d s Hv) as (r & s1 & t1 & Hd & Hv1 & Hw1 & Hh1 & Ha1).
    unfold bind. rewrite Hd. destruct r as [[]|c w].
    + destruct (IH s1 Hv1) as (r2 & s2 & t2 & Hd2 & Hv2 & Hw2 & Hh2 & Ha2).
      rewrite Hd2. eexists _, _, _. split; [reflexivity|].
      rewrite teardown_work_app, Hw1, Hw2. repeat split; congruence.
    + by eexists _, _, _.
Qed.

End AfterTeardown.

(** C3. [launcher_session_cleanup] is idempotent.  Whichever of the two
    paths (a direct call, as made on completion, or the SIGINT handler)
    requests the teardown first and whichever requests it again, the first
    request frees every allocated host entry once and shuts the transport
    down once, the second changes nothing and frees nothing, and the two
    calls in sequence are the same computation as one call.  From then on
    the session stays cleaned up whatever the event loop delivers. *)
Theorem cleanup_idempotent (P : platform) (env : environment)
    (p q : teardown_path) (s : launcher_session_t) :
  (Z.to_nat (host_count s) <= length (host_info s))%nat ->
  exists s1 t1 t2,
    teardown P env p s = Some (Done tt, s1, t1) /\
    teardown P env q s1 = Some (Done tt, s1, t2) /\
    valid s1 = false /\
    teardown_work t1 =
      (if valid s
       then freed (host_info s) 0 (Z.to_nat (host_count s)) ++ [EClientShutdown]
       else []) /\
    teardown_work t2 = [] /\
    (launcher_session_cleanup ;; launcher_session_cleanup) s
      = launcher_session_cleanup s /\
    forall ds, exists r s' t,
      deliver_all P env ds s1 = Some (r, s', t) /\
      valid s' = false /\ teardown_work t = [].
Proof.
  intros Hlen.
  assert (Hfirst : exists s1 t1,
            teardown P env p s = Some (Done tt, s1, t1) /\
            launcher_session_cleanup s = Some (Done tt, s1, teardown_work t1) /\
            valid s1 = false /\
            teardown_work t1 =
              (if valid s
               then freed (host_info s) 0 (Z.to_nat (host_count s))
                      ++ [EClientShutdown]
               else [])).
  { destruct (valid s) eqn:Hv.
    - pose proof (cleanup_valid s Hv Hlen) as Hc.
      destruct p; simpl.
      + rewrite Hc. eexists _, _. split; [reflexivity|].
        rewrite teardown_work_app, teardown_work_freed. by repeat split.
      + rewrite signal_handler_spec, Hc. eexists _, _. split; [reflexivity|].
        simpl. rewrite !teardown_work_app, teardown_work_stops,
          teardown_work_freed. by repeat split.
    - destruct (teardown_invalid P env p s Hv) as (t & Ht & Hw).
      exists s, t. rewrite Hw. by rewrite cleanup_invalid. }
  destruct Hfirst as (s1 & t1 & Hp & Hc & Hv1 & Hw1).
  destruct (teardown_invalid P env q s1 Hv1) as (t2 & Hq & Hw2).
  exists s1, t1, t2. repeat split; try done.
  - unfold bind. rewrite Hc, cleanup_invalid by done.
    by rewrite app_nil_r.
  - intros ds.
    destruct (deliver_all_invalid P env ds s1 Hv1) as (r & s' & t & H & ? & ? & _).
    by exists r, s', t.
Qed.

(** ** Status reports *)

Lemma cleanup_ran_app t1 t2 :
  cleanup_ran (t1 ++ t2) = (cleanup_ran t1 || cleanup_ran t2)%bool.
Proof. apply existsb_app. Qed.

Lemma rxmsg_step fd buf s :
  slots_in_range s -> in_int (nr_ackd s) -> nr_ackd s < INT_MAX ->
  exists s' t,
    launcher_rxmsg_callback fd buf s = Some (Done tt, s', t) /\
    nr_ackd s' = nr_ackd s + 1 /\ nr_active s' = nr_active s /\
    slots_in_range s' /\
    valid s' = (valid s && negb (nr_active s <=? nr_ackd s + 1))%bool /\
    cleanup_ran t = (valid s && (nr_active s <=? nr_ackd s + 1))%bool.
Proof.
  intros Hr Ha Hmax. rewrite rxmsg_callback_spec. cbv zeta.
  assert (Hw : int_wrap (nr_ackd s + 1) = nr_ackd s + 1).
  { apply int_wrap_id. unfold in_int, INT_MIN, INT_MAX in *. lia. }
  simpl nr_ackd. rewrite Hw.
  destruct (nr_active s <=? nr_ackd s + 1) eqn:Hle.
  - destruct (valid s) eqn:Hv.
    + rewrite cleanup_valid by done. eexists _, _. split; [reflexivity|].
      simpl. rewrite cleanup_ran_app. simpl.
      unfold slots_in_range in *. simpl. rewrite length_clear_slots.
      repeat split; try done. apply orb_true_r.
    + rewrite cleanup_invalid by done. eexists _, _. split; [reflexivity|].
      simpl. by rewrite Hv.
  - eexists _, _. split; [reflexivity|]. simpl.
    by rewrite andb_true_r, andb_false_r.
Qed.

Lemma status_reports_run rs : forall s,
  slots_in_range s -> in_int (nr_ackd s) ->
  nr_ackd s + Z.of_nat (length rs) <= INT_MAX ->
  exists s' t,
    status_reports rs s = Some (Done tt, s', t) /\
    nr_ackd s' = nr_ackd s + Z.of_nat (length rs) /\
    nr_active s' = nr_active s /\
    slots_in_range s' /\
    valid s' =
      (valid s &&
       ((length rs =? 0)%nat
        || negb (nr_active s <=? nr_ackd s + Z.of_nat (length rs))))%bool /\
    cleanup_ran t = (valid s && negb (valid s'))%bool.
Proof.
  induction rs as [|[fd buf] rs IH]; intros s Hr Ha Hmax.
  - exists s, []. simpl. rewrite andb_true_r, Z.add_0_r.
    repeat split; try done. by destruct (valid s).
  - rewrite length_cons, Nat2Z.inj_succ in *.
    destruct (rxmsg_step fd buf s Hr Ha ltac:(lia))
      as (s1 & t1 & H1 & Hk1 & Hn1 & Hr1 & Hv1 & Hc1).
    destruct (IH s1 Hr1) as (s2 & t2 & H2 & Hk2 & Hn2 & Hr2 & Hv2 & Hc2).
    { unfold in_int, INT_MIN, INT_MAX in *. lia. }
    { lia. }
    exists s2, (t1 ++ t2). simpl. unfold bind. rewrite H1, H2.
    split; [reflexivity|]. rewrite cleanup_ran_app, Hc1, Hc2, Hv2, Hv1, Hn1, Hk1.
    repeat split; try done; try lia.
    + replace (nr_ackd s + 1 + Z.of_nat (length rs))
        with (nr_ackd s + Z.succ (Z.of_nat (length rs))) by lia.
      destruct (valid s); simpl; [|done].
      destruct (nr_active s <=? nr_ackd s + 1) eqn:E1;
        destruct (nr_active s <=? nr_ackd s + Z.succ (Z.of_nat (length rs))) eqn:E2;
        destruct (length rs =? 0)%nat eqn:E3; simpl; try done;
        apply Z.leb_le in E1 || apply Z.leb_gt in E1;
        apply Z.leb_le in E2 || apply Z.leb_gt in E2;
        apply Nat.eqb_eq in E3 || apply Nat.eqb_neq in E3; lia.
    + replace (nr_ackd s + 1 + Z.of_nat (length rs))
        with (nr_ackd s + Z.succ (Z.of_nat (length rs))) by lia.
      destruct (valid s); simpl; [|done].
      destruct (nr_active s <=? nr_ackd s + 1); simpl; [done|].
      done.
Qed.

(** C1 (as amended).  On a valid session, every status report increments
    [nr_ackd], and the teardown runs at exactly one report of any
    sequence: the first one after which [nr_active <= nr_ackd], that is
    report number [max 1 (nr_active - nr_ackd)] counted from the state the
    sequence starts in, and at no earlier report.  When the session still
    waits for an acknowledgment ([nr_ackd < nr_active]) this is the report
    that makes [nr_ackd] equal to [nr_active]. *)
Theorem cleanup_fires_at_completion (s : launcher_session_t)
    (pre : list (Z * string)) (fd : Z) (buf : string) :
  valid s = true ->
  slots_in_range s ->
  in_int (nr_ackd s) ->
  nr_ackd s + Z.of_nat (length pre) < INT_MAX ->
  exists s1 t1 s2 t2,
    status_reports pre s = Some (Done tt, s1, t1) /\
    launcher_rxmsg_callback fd buf s1 = Some (Done tt, s2, t2) /\
    nr_ackd s2 = nr_ackd s + Z.of_nat (length pre) + 1 /\
    nr_active s2 = nr_active s /\
    (cleanup_ran t2 = true <->
       Z.of_nat (length pre) + 1 = Z.max 1 (nr_active s - nr_ackd s)) /\
    (cleanup_ran t2 = true ->
       valid s2 = false /\ cleanup_ran t1 = false /\
       nr_active s2 <= nr_ackd s2) /\
    (cleanup_ran t2 = true -> nr_ackd s < nr_active s ->
       nr_ackd s2 = nr_active s2).
Proof.
  intros Hv Hr Ha Hmax.
  destruct (status_reports_run pre s Hr Ha ltac:(lia))
    as (s1 & t1 & H1 & Hk1 & Hn1 & Hr1 & Hv1 & Hc1).
  destruct (rxmsg_step fd buf s1 Hr1) as (s2 & t2 & H2 & Hk2 & Hn2 & Hr2 & Hv2 & Hc2).
  { unfold in_int, INT_MIN, INT_MAX in *. lia. }
  { lia. }
  exists s1, t1, s2, t2. rewrite Hv in *. simpl in Hv1, Hc1.
  rewrite Hc2, Hv2, Hc1, Hv1, Hk2, Hn2, Hk1, Hn1.
  repeat split; try lia; try assumption.
  - intros H. apply andb_true_iff in H as [Ho Hle].
    apply Z.leb_le in Hle. apply orb_true_iff in Ho as [H0|Hlt].
    + apply Nat.eqb_eq in H0. lia.
    + apply negb_true_iff, Z.leb_gt in Hlt. lia.
  - intros H. apply andb_true_iff. split.
    + apply orb_true_iff.
      destruct (decide (length pre = 0%nat)) as [H0|H0].
      * left. by apply Nat.eqb_eq.
      * right. apply negb_true_iff, Z.leb_gt. lia.
    + apply Z.leb_le. lia.
  - apply andb_true_iff in H as [Ho _]. by rewrite Ho.
  - intros H Hlt. apply andb_true_iff in H as [Ho Hle].
    apply Z.leb_le in Hle. apply orb_true_iff in Ho as [H0|Hlt'].
    + apply Nat.eqb_eq in H0. lia.
    + apply negb_true_iff, Z.leb_gt in Hlt'. lia.
Qed.

(** ** Session invariants through the monad *)

Section Preserves.

Context {A B : Type} (I : launcher_session_t -> Prop).

Lemma preserves_ret (a : A) : preserves I (ret a).
Proof. intros s r s' t HI [= <- <- <-]. done. Qed.

Lemma preserves_bind (m : M A) (k : A -> M B) :
  preserves I m -> (forall a, preserves I (k a)) -> preserves I (bind m k).
Proof.
  intros Hm Hk s r s' t HI. unfold bind.
  destruct (m s) as [[[[a|c w] s1] t1]|] eqn:Em; [| |done].
  - destruct (k a s1) as [[[r2 s2] t2]|] eqn:Ek; [|done].
    intros [= <- <- <-]. eapply Hk; [|exact Ek]. eapply Hm; [exact HI|exact Em].
  - intros [= <- <- <-]. eapply Hm; [exact HI|exact Em].
Qed.

Lemma preserves_undefined : preserves I (@undefined A).
Proof. intros s r s' t HI. discriminate. Qed.

Lemma preserves_exit c w : preserves I (@exit A c w).
Proof. intros s r s' t HI [= <- <- <-]. done. Qed.

End Preserves.

Section PreservesPrimitives.

Context (I : launcher_session_t -> Prop).

Lemma preserves_get : preserves I get.
Proof. intros s r s' t HI [= <- <- <-]. done. Qed.

Lemma preserves_emit e : preserves I (emit e).
Proof. intros s r s' t HI [= <- <- <-]. done. Qed.

Lemma preserves_modify f : (forall s, I s -> I (f s)) -> preserves I (modify f).
Proof. intros Hf s r s' t HI [= <- <- <-]. by apply Hf. Qed.

Lemma preserves_for_loop body n :
  (forall i, preserves I (body i)) -> forall i, preserves I (for_loop n i body).
Proof.
  intros Hb. induction n as [|n IH]; intros i; simpl.
  - apply preserves_ret.
  - apply preserves_bind; [apply Hb|]. intros _. apply IH.
Qed.

Hypothesis I_host_info : forall v s, I s -> I (set_host_info v s).
Hypothesis I_skt_conns : forall v s, I s -> I (set_skt_conns v s).

Lemma preserves_read_host_slot i : preserves I (read_host_slot i).
Proof.
  intros s r s' t HI. unfold read_host_slot.
  destruct (host_info s !! i); [|done]. intros [= <- <- <-]. done.
Qed.

Lemma preserves_write_host_slot i p : preserves I (write_host_slot i p).
Proof.
  intros s r s' t HI. unfold write_host_slot.
  destruct (host_info s !! i); [|done]. intros [= <- <- <-]. by apply I_host_info.
Qed.

Lemma preserves_host_name_at i : preserves I (host_name_at i).
Proof.
  apply preserves_bind; [apply preserves_read_host_slot|].
  intros [h|]; [apply preserves_ret|apply preserves_undefined].
Qed.

Lemma preserves_write_skt_conn i fd : preserves I (write_skt_conn i fd).
Proof.
  intros s r s' t HI. unfold write_skt_conn.
  destruct (skt_conns s !! i); [|done]. intros [= <- <- <-]. by apply I_skt_conns.
Qed.

Lemma preserves_cleanup_slot i : preserves I (cleanup_slot i).
Proof.
  apply preserves_bind; [apply preserves_read_host_slot|]. intros p.
  apply preserves_bind; [|intros _; apply preserves_write_host_slot].
  destruct p; [apply preserves_emit|apply preserves_ret].
Qed.

End PreservesPrimitives.

Lemma preserves_transforms {A} I (m : M A) : preserves I m -> transforms I I m.
Proof. intros H s a s' t. apply H. Qed.

Lemma transforms_bind {A B} I I1 I2 (m : M A) (k : A -> M B) :
  transforms I I1 m -> (forall a, transforms I1 I2 (k a)) ->
  transforms I I2 (bind m k).
Proof.
  intros Hm Hk s b s' t HI. unfold bind.
  destruct (m s) as [[[[a|c w] s1] t1]|] eqn:Em; [| |done].
  - destruct (k a s1) as [[[r2 s2] t2]|] eqn:Ek; [|done].
    intros [= -> <- <-]. eapply Hk; [|exact Ek]. eapply Hm; [exact HI|exact Em].
  - discriminate.
Qed.

Lemma transforms_ret {A} (I I' : launcher_session_t -> Prop) (a : A) :
  (forall s, I s -> I' s) -> transforms I I' (ret a).
Proof. intros H s b s' t HI [= <- <- <-]. by apply H. Qed.

Lemma transforms_emit (I I' : launcher_session_t -> Prop) e :
  (forall s, I s -> I' s) -> transforms I I' (emit e).
Proof. intros H s b s' t HI [= <- <-]. by apply H. Qed.

Lemma transforms_modify (I I' : launcher_session_t -> Prop) f :
  (forall s, I s -> I' (f s)) -> transforms I I' (modify f).
Proof. intros H s b s' t HI [= <- <-]. by apply H. Qed.

Lemma transforms_for_loop (J : nat -> launcher_session_t -> Prop) body n :
  forall i,
  (forall j, (i <= j < i + n)%nat -> transforms (J j) (J (S j)) (body j)) ->
  transforms (J i) (J (i + n)%nat) (for_loop n i body).
Proof.
  induction n as [|n IH]; intros i Hb; simpl.
  - apply transforms_ret. intros s. by rewrite Nat.add_0_r.
  - eapply transforms_bind; [apply Hb; lia|]. intros _.
    replace (i + S n)%nat with (S i + n)%nat by lia.
    apply IH. intros j Hj. apply Hb. lia.
Qed.

Lemma cleanup_counters s r s' t :
  launcher_session_cleanup s = Some (r, s', t) ->
  valid s' = false /\ nr_active s' = nr_active s /\ nr_ackd s' = nr_ackd s.
Proof.
  destruct (valid s) eqn:Hv.
  - unfold launcher_session_cleanup, bind at 1, get. rewrite Hv.
    unfold bind at 1, modify. intros H. cbn [negb] in H.
    assert (Hp : preserves
              (fun x => counters x = (nr_active s, nr_ackd s, false))
              (for_loop (Z.to_nat (host_count s)) 0 cleanup_slot ;;
               emit EClientShutdown)).
    { apply preserves_bind; [|intros _; apply preserves_emit].
      apply preserves_for_loop. intros i. by apply preserves_cleanup_slot. }
    destruct ((for_loop (Z.to_nat (host_count s)) 0 cleanup_slot ;;
               emit EClientShutdown) (set_valid false s))
      as [[[r2 s2] t2]|] eqn:E; [|done].
    injection H as <- <- <-.
    specialize (Hp (set_valid false s) _ _ _ eq_refl E). unfold counters in Hp.
    by injection Hp as -> -> ->.
  - rewrite cleanup_invalid by done. by intros [= <- <- <-].
Qed.

Section Lifecycle.

Variable P : platform.

Lemma setup_unfold env s :
  launcher_session_setup env s =
    match for_loop (Z.to_nat (host_count s)) 0 (setup_host env) (setup_init s) with
    | Some (Done _, s', t) => Some (Done 0, s', t)
    | Some (Exited c w, s', t) => Some (Exited c w, s', t)
    | None => None
    end.
Proof.
  unfold launcher_session_setup, bind, modify, get, ret. simpl.
  fold (setup_init s).
  destruct (for_loop _ _ _ (setup_init s)) as [[[[[]|c w] s'] t]|];
    try reflexivity.
  by rewrite app_nil_r.
Qed.

Lemma preserves_sendto_server I env fd h p n :
  preserves I (sendto_server env fd h p n).
Proof.
  apply preserves_bind; [apply preserves_emit|intros _; apply preserves_ret].
Qed.

Lemma preserves_start_host I env i : preserves I (start_host P env i).
Proof.
  unfold start_host.
  apply preserves_bind; [apply preserves_host_name_at|]. intros name.
  apply preserves_bind; [apply preserves_emit|]. intros _.
  apply preserves_bind; [apply preserves_get|]. intros s.
  apply preserves_bind; [apply preserves_sendto_server|]. intros _.
  apply preserves_bind; [apply preserves_sendto_server|]. intros r.
  apply preserves_bind; [apply preserves_sendto_server|]. intros c.
  apply preserves_bind; [|intros _; apply preserves_ret].
  destruct (c =? -1); [apply preserves_emit|apply preserves_ret].
Qed.

Lemma preserves_start_loop I env n : forall i r,
  preserves I (start_loop P env n i r).
Proof.
  induction n as [|n IH]; intros i r; simpl.
  - apply preserves_ret.
  - apply preserves_bind; [apply preserves_start_host|]. intros r'. apply IH.
Qed.

(** Dispatch writes nothing into the session. *)
Lemma start_loop_state env n i r s r' s' t :
  start_loop P env n i r s = Some (r', s', t) -> s' = s.
Proof.
  intros H. by apply (preserves_start_loop (fun x => x = s) env n i r s r' s' t).
Qed.

Lemma transforms_setup_host env j :
  Z.of_nat j < INT_MAX ->
  transforms (setup_inv j) (setup_inv (S j)) (setup_host env j).
Proof.
  intros Hj. unfold setup_host.
  assert (Hweak : forall x, setup_inv j x -> setup_inv (S j) x).
  { unfold setup_inv. intros x (Hn & ? & ?). split; [lia|done]. }
  eapply transforms_bind;
    [by apply preserves_transforms, preserves_host_name_at|]. intros name.
  destruct (hostname_to_netaddr env j name) as [a|];
    [|by apply transforms_ret].
  eapply transforms_bind;
    [by apply preserves_transforms, preserves_modify|]. intros _.
  eapply transforms_bind; [apply preserves_transforms, preserves_get|].
  intros s.
  eapply transforms_bind;
    [by apply preserves_transforms, preserves_write_skt_conn|]. intros _.
  destruct (_ =? -1); [by apply transforms_emit|].
  apply transforms_modify. intros x (Hn & ? & ?). unfold setup_inv. simpl.
  rewrite int_wrap_id by (unfold in_int, INT_MIN, INT_MAX in *; lia).
  split; [lia|done].
Qed.

Lemma setup_ack_inv env s a s' t :
  in_int (host_count s) ->
  launcher_session_setup env s = Some (Done a, s', t) ->
  0 <= nr_active s' <= Z.max 0 (host_count s) /\ nr_ackd s' = 0 /\
  valid s' = true.
Proof.
  intros Hc. rewrite setup_unfold. intros H.
  destruct (for_loop _ _ _ (setup_init s)) as [[[[[]|c w] s1] t1]|] eqn:E;
    [|done|done].
  injection H as <- <- <-.
  assert (Hpost : setup_inv (0 + Z.to_nat (host_count s)) s1).
  { eapply (transforms_for_loop setup_inv); [|  |exact E].
    - intros j Hj. apply transforms_setup_host.
      unfold in_int, INT_MIN, INT_MAX in *. lia.
    - unfold setup_inv. simpl. split; [lia|done]. }
  destruct Hpost as (Hn & ? & ?). split; [lia|done].
Qed.

Lemma rxmsg_ack_inv fd buf s r s' t :
  ack_inv s -> launcher_rxmsg_callback fd buf s = Some (r, s', t) -> ack_inv s'.
Proof.
  intros (Hn & Ha & Hle). rewrite rxmsg_callback_spec. cbv zeta. simpl nr_ackd.
  pose proof (int_wrap_in_int (nr_ackd s + 1)) as Hw.
  destruct (nr_active s <=? int_wrap (nr_ackd s + 1)) eqn:E.
  - destruct (launcher_session_cleanup _) as [[[r1 s1] t1]|] eqn:Ec; [|done].
    intros [= <- <- <-].
    apply cleanup_counters in Ec as (Hv & Hn1 & Ha1). simpl in Hn1, Ha1.
    unfold ack_inv. rewrite Hn1, Ha1.
    split; [done|]. split; [done|congruence].
  - intros [= <- <- <-]. unfold ack_inv. simpl. apply Z.leb_gt in E.
    split; [done|]. split; [done|]. intros _. lia.
Qed.

Lemma reachable_ack_inv s : reachable P s -> ack_inv s.
Proof.
  induction 1 as [env s0 r s t Hc H|env s r s' t _ IH H|env d s r s' t _ IH H
                 |s r s' t _ IH H].
  - apply setup_ack_inv in H as (Hn & Ha & Hv); [|done].
    unfold ack_inv. rewrite Ha. unfold in_int, INT_MIN, INT_MAX in *.
    split; [lia|]. split; [lia|]. intros _. lia.
  - apply start_loop_state in H. by subst.
  - destruct d as [fd buf|fd|]; simpl in H.
    + by eapply rxmsg_ack_inv.
    + assert (s' = s) as ->; [|done].
      revert H. unfold launcher_shutdown_callback, bind, fprintf, emit.
      destruct (0 <? fd); by intros [= <- <- <-].
    + destruct (sigaction_ok env); [|by injection H as <- <- <-].
      rewrite signal_handler_spec in H.
      destruct (launcher_session_cleanup s) as [[[r1 s1] t1]|] eqn:Ec; [|done].
      injection H as <- <- <-.
      apply cleanup_counters in Ec as (Hv & Hn1 & Ha1).
      destruct IH as (? & ? & ?). unfold ack_inv. rewrite Hn1, Ha1.
      split; [done|]. split; [done|congruence].
  - apply cleanup_counters in H as (Hv & Hn1 & Ha1).
    destruct IH as (? & ? & ?). unfold ack_inv. rewrite Hn1, Ha1.
    split; [done|]. split; [done|congruence].
Qed.

(** C4 (as amended).  In every session reachable by setup, dispatch, the
    deliveries of the event loop and cleanup: while the session is valid,
    [nr_ackd <= nr_active]; once it is cleaned up, a status report still
    increments [nr_ackd] (the callback does not test the flag), and it
    changes nothing else: [nr_active], the flag and the host entries stay
    as they are and no teardown work is done. *)
Theorem ack_invariant (s : launcher_session_t) :
  reachable P s ->
  (valid s = true -> nr_ackd s <= nr_active s) /\
  (valid s = false ->
   forall fd buf, exists t,
     launcher_rxmsg_callback fd buf s
       = Some (Done tt, set_nr_ackd (int_wrap (nr_ackd s + 1)) s, t) /\
     int_wrap (nr_ackd s + 1) <> nr_ackd s /\
     teardown_work t = []).
Proof.
  intros Hreach. destruct (reachable_ack_inv s Hreach) as (Hn & Ha & Hle).
  split; [done|]. intros Hv fd buf.
  rewrite rxmsg_callback_spec. cbv zeta.
  destruct (nr_active s <=? _).
  - rewrite cleanup_invalid by done. eexists. split; [reflexivity|].
    split; [by apply int_wrap_succ_neq|done].
  - eexists. split; [reflexivity|]. split; [by apply int_wrap_succ_neq|done].
Qed.

End Lifecycle.

(** ** Setup *)

Lemma setup_host_spec env i s h ip0 :
  host_info s !! i = Some (Some h) ->
  (i < length (skt_conns s))%nat ->
  cl_params s = setup_params ip0 ->
  0 <= nr_active s < INT_MAX ->
  exists s',
    setup_host env i s = Some (Done tt, s', setup_log_of env (host_info s) i) /\
    nr_active s' = nr_active s + (if connected env (host_info s) i then 1 else 0) /\
    skt_conns s' =
      match connect_result env (host_info s) i with
      | Some fd => <[i := fd]> (skt_conns s)
      | None => skt_conns s
      end /\
    (exists ip, cl_params s' = setup_params ip) /\
    s' = set_cl_params (cl_params s')
           (set_skt_conns (skt_conns s') (set_nr_active (nr_active s') s)).
Proof.
  intros Hh Hlen Hp Hn.
  unfold setup_host, host_name_at, bind at 1, bind at 1, read_host_slot.
  unfold connected, connect_result, setup_log_of, resolved_ip.
  rewrite Hh. simpl.
  destruct (hostname_to_netaddr env i (hostname h)) as [a|]; simpl.
  - destruct (lookup_lt_is_Some_2 (skt_conns s) i Hlen) as [c Hc].
    unfold bind, modify, get, write_skt_conn, fprintf, emit. simpl.
    rewrite Hc, Hp. unfold setup_params. simpl.
    destruct (comlink_client_setup env i _ =? -1); simpl.
    + eexists. split; [reflexivity|]. simpl.
      repeat split; first [lia | by eexists | by destruct s].
    + eexists. split; [reflexivity|]. simpl.
      rewrite int_wrap_id by (unfold in_int, INT_MIN, INT_MAX in *; lia).
      repeat split; first [lia | by eexists | by destruct s].
  - exists s. split; [reflexivity|].
    repeat split; first [lia | by eexists | by destruct s].
Qed.

Lemma setup_frame s s' :
  s' = set_cl_params (cl_params s')
         (set_skt_conns (skt_conns s') (set_nr_active (nr_active s') s)) ->
  host_info s' = host_info s /\ host_count s' = host_count s /\
  nr_ackd s' = nr_ackd s /\ valid s' = valid s /\
  instances s' = instances s /\ exe_name s' = exe_name s /\
  host_file s' = host_file s.
Proof. intros ->. by repeat split. Qed.

Lemma setup_loop_spec env n : forall i s,
  (forall j, (i <= j < i + n)%nat -> exists h, host_info s !! j = Some (Some h)) ->
  (i + n <= length (skt_conns s))%nat ->
  (exists ip, cl_params s = setup_params ip) ->
  0 <= nr_active s -> nr_active s + Z.of_nat n <= INT_MAX ->
  exists s',
    for_loop n i (setup_host env) s
      = Some (Done tt, s', setup_log env (host_info s) i n) /\
    nr_active s' =
      nr_active s + Z.of_nat (count_connected env (host_info s) i n) /\
    length (skt_conns s') = length (skt_conns s) /\
    (forall j, skt_conns s' !! j =
       if decide (i <= j < i + n)%nat
       then match connect_result env (host_info s) j with
            | Some fd => Some fd
            | None => skt_conns s !! j
            end
       else skt_conns s !! j) /\
    s' = set_cl_params (cl_params s')
           (set_skt_conns (skt_conns s') (set_nr_active (nr_active s') s)).
Proof.
  induction n as [|n IH]; intros i s Hh Hlen [ip0 Hp] Hn0 Hmax.
  - exists s. split; [reflexivity|]. unfold count_connected. simpl.
    repeat split; try lia; [|by destruct s].
    intros j. case_decide; [lia|done].
  - destruct (Hh i ltac:(lia)) as [h Hi].
    destruct (setup_host_spec env i s h ip0 Hi ltac:(lia) Hp ltac:(lia))
      as (s1 & H1 & Hn1 & Hc1 & Hp1 & Hf1).
    destruct (setup_frame _ _ Hf1) as (Hhi & _).
    assert (Hlen1 : length (skt_conns s1) = length (skt_conns s)).
    { rewrite Hc1. destruct (connect_result _ _ _); [apply length_insert|done]. }
    destruct (IH (S i) s1) as (s2 & H2 & Hn2 & Hl2 & Hc2 & Hf2).
    { rewrite Hhi. intros j Hj. apply Hh. lia. }
    { lia. }
    { done. }
    { rewrite Hn1. destruct (connected _ _ _); lia. }
    { rewrite Hn1. destruct (connected _ _ _); lia. }
    exists s2. simpl. unfold bind. rewrite H1, H2, Hhi.
    split; [reflexivity|]. split; [|split; [congruence|split]].
    + rewrite Hn2, Hn1, Hhi. unfold count_connected. simpl.
      destruct (connected env (host_info s) i); simpl; lia.
    + intros j. rewrite Hc2, Hhi, Hc1.
      destruct (decide (j = i)) as [->|Hne].
      * rewrite decide_False, decide_True by lia.
        destruct (connect_result env (host_info s) i); [|done].
        by rewrite list_lookup_insert_eq by lia.
      * assert (Hins : forall o : option Z,
                  match o with
                  | Some fd => <[i := fd]> (skt_conns s)
                  | None => skt_conns s
                  end !! j = skt_conns s !! j).
        { intros [fd|]; [by rewrite list_lookup_insert_ne|done]. }
        rewrite Hins.
        destruct (decide (S i <= j < S i + n)%nat);
          [rewrite decide_True by lia|rewrite decide_False by lia]; done.
    + rewrite Hf2 at 1. rewrite Hf1 at 1. by destruct s.
Qed.

(** Setup on a session whose slots hold the host entries. *)
Lemma setup_run (env : environment) (s : launcher_session_t) :
  session_ready s = true ->
  exists s',
    launcher_session_setup env s
      = Some (Done 0, s',
              setup_log env (host_info s) 0 (Z.to_nat (host_count s))) /\
    nr_active s' =
      Z.of_nat (count_connected env (host_info s) 0 (Z.to_nat (host_count s))) /\
    nr_active s' <= Z.of_nat (Z.to_nat (host_count s)) /\
    (forall j, (j < Z.to_nat (host_count s))%nat ->
       skt_conns s' !! j =
         match connect_result env (host_info s) j with
         | Some fd => Some fd
         | None => skt_conns s !! j
         end) /\
    host_info s' = host_info s /\ host_count s' = host_count s /\
    nr_ackd s' = 0 /\ valid s' = true.
Proof.
  intros Hready. unfold session_ready in Hready.
  apply andb_true_iff in Hready as [Hready Hmax].
  apply andb_true_iff in Hready as [Hall Hcap].
  apply Z.leb_le in Hmax. apply Nat.leb_le in Hcap.
  rewrite forallb_forall in Hall.
  rewrite setup_unfold.
  destruct (setup_loop_spec env (Z.to_nat (host_count s)) 0 (setup_init s))
    as (s' & Hrun & Hn & Hl & Hc & Hf).
  { intros j Hj. specialize (Hall j). simpl.
    destruct (host_info s !! j) as [[h|]|]; [by exists h| |];
      exfalso; (assert (false = true) as Hff; [|discriminate Hff]);
      apply Hall, in_seq; lia. }
  { simpl. lia. }
  { by exists 0. }
  { simpl. lia. }
  { simpl. unfold INT_MAX in *. lia. }
  simpl host_count in Hrun. simpl host_info in *. rewrite Hrun.
  exists s'. split; [reflexivity|].
  destruct (setup_frame _ _ Hf) as (Hhi & Hhc & Ha & Hv & _).
  simpl in Hn, Hhi, Hhc, Ha, Hv.
  repeat split; try done.
  - rewrite Hn. unfold count_connected.
    pose proof (List.filter_length_le (connected env (host_info s))
                  (seq 0 (Z.to_nat (host_count s)))) as Hle.
    rewrite length_seq in Hle. lia.
  - intros j Hj. rewrite Hc. by rewrite decide_True by lia.
Qed.

(** C7 (as amended).  For a session whose [host_count] slots hold the
    host entries, setup handles every slot and returns; afterwards
    [nr_active] is the number of slots for which the transport connect
    succeeded, which is at most [host_count].  A slot whose name does not
    resolve is skipped without a diagnostic, its handle left as it was; a
    slot whose connect fails has the failed handle recorded and one
    diagnostic printed; these are the only lines setup prints, and the
    remaining slots are handled all the same. *)
Theorem setup_counts_connected (env : environment) (s : launcher_session_t) :
  1 <= host_count s ->
  session_ready s = true ->
  exists s',
    launcher_session_setup env s
      = Some (Done 0, s',
              setup_log env (host_info s) 0 (Z.to_nat (host_count s))) /\
    nr_active s' =
      Z.of_nat (count_connected env (host_info s) 0 (Z.to_nat (host_count s))) /\
    nr_active s' <= host_count s /\
    (forall j, (j < Z.to_nat (host_count s))%nat ->
       skt_conns s' !! j =
         match connect_result env (host_info s) j with
         | Some fd => Some fd
         | None => skt_conns s !! j
         end) /\
    host_info s' = host_info s /\ host_count s' = host_count s /\
    nr_ackd s' = 0 /\ valid s' = true /\
    (forall j, resolved_ip env (host_info s) j = None ->
       setup_log_of env (host_info s) j = []) /\
    (forall j ip, resolved_ip env (host_info s) j = Some ip ->
       setup_log_of env (host_info s) j =
         if comlink_client_setup env j (setup_params ip) =? -1
         then [EPrint stderr (LogSetupFailed ip)] else []).
Proof.
  intros HN Hready.
  destruct (setup_run env s Hready)
    as (s' & Hrun & Hn & Hle & Hconn & Hhi & Hhc & Ha & Hv).
  exists s'. split; [exact Hrun|]. split; [exact Hn|]. split; [lia|].
  split; [exact Hconn|]. split; [exact Hhi|]. split; [exact Hhc|].
  split; [exact Ha|]. split; [exact Hv|]. split.
  - intros j Hj. unfold setup_log_of. by rewrite Hj.
  - intros j ip Hj. unfold setup_log_of. by rewrite Hj.
Qed.

(** ** Where the process can end *)

Section ExitSites.

Context {A B : Type} (w : exit_site).

Lemma avoid_ret (a : A) : exits_avoid w (ret a).
Proof. intros s c s' t. discriminate. Qed.

Lemma avoid_undefined : exits_avoid w (@undefined A).
Proof. intros s c s' t. discriminate. Qed.

Lemma avoid_exit c w' : w' <> w -> exits_avoid w (@exit A c w').
Proof. intros Hne s c' s' t [= _ ->]. done. Qed.

Lemma avoid_bind_returning (Q : A -> Prop) (m : M A) (k : A -> M B) :
  exits_avoid w m -> returns_only Q m ->
  (forall a, Q a -> exits_avoid w (k a)) ->
  exits_avoid w (bind m k).
Proof.
  intros Hm HQ Hk s c s' t. unfold bind.
  destruct (m s) as [[[[a|c1 w1] s1] t1]|] eqn:Em; [| |done].
  - destruct (k a s1) as [[[r2 s2] t2]|] eqn:Ek; [|done].
    intros [= -> <- <-]. eapply Hk; [|exact Ek]. eapply HQ, Em.
  - intros [= -> -> <- <-]. by eapply Hm.
Qed.

Lemma avoid_bind (m : M A) (k : A -> M B) :
  exits_avoid w m -> (forall a, exits_avoid w (k a)) ->
  exits_avoid w (bind m k).
Proof.
  intros Hm Hk. apply (avoid_bind_returning (fun _ => True)); [done|done|auto].
Qed.

End ExitSites.

Lemma avoid_get w : exits_avoid w get.
Proof. intros s c s' t. discriminate. Qed.

Lemma avoid_modify w f : exits_avoid w (modify f).
Proof. intros s c s' t. discriminate. Qed.

Lemma avoid_emit w e : exits_avoid w (emit e).
Proof. intros s c s' t. discriminate. Qed.

Lemma avoid_read_host_slot w i : exits_avoid w (read_host_slot i).
Proof.
  intros s c s' t. unfold read_host_slot. by destruct (host_info s !! i).
Qed.

Lemma avoid_write_host_slot w i p : exits_avoid w (write_host_slot i p).
Proof.
  intros s c s' t. unfold write_host_slot. by destruct (host_info s !! i).
Qed.

Lemma avoid_write_skt_conn w i fd : exits_avoid w (write_skt_conn i fd).
Proof.
  intros s c s' t. unfold write_skt_conn. by destruct (skt_conns s !! i).
Qed.

Lemma avoid_for_loop w body n :
  (forall i, exits_avoid w (body i)) -> forall i, exits_avoid w (for_loop n i body).
Proof.
  intros Hb. induction n as [|n IH]; intros i; simpl.
  - apply avoid_ret.
  - apply avoid_bind; [apply Hb|intros _; apply IH].
Qed.

(** One step of the site analysis: a rule for the head of the
    computation, or a case distinction on what it branches on. *)
Ltac avoid_step :=
  first
    [ apply avoid_ret | apply avoid_get | apply avoid_modify
    | apply avoid_emit | apply avoid_undefined
    | apply avoid_read_host_slot | apply avoid_write_host_slot
    | apply avoid_write_skt_conn
    | apply avoid_exit; discriminate
    | apply avoid_for_loop; intros ?
    | apply avoid_bind; [|intros ?]
    | match goal with
      | |- exits_avoid _ (match ?x with _ => _ end) => destruct x
      end ].

Ltac avoid := repeat avoid_step.

Lemma avoid_cleanup w : exits_avoid w launcher_session_cleanup.
Proof. unfold launcher_session_cleanup, cleanup_slot. avoid. Qed.

Lemma avoid_rxmsg_callback w fd buf :
  exits_avoid w (launcher_rxmsg_callback fd buf).
Proof.
  unfold launcher_rxmsg_callback, fprintf. avoid.
Qed.

Section ExitSitesOfTheLauncher.

Variable P : platform.
Variable env : environment.

Lemma avoid_setup w : exits_avoid w (launcher_session_setup env).
Proof.
  unfold launcher_session_setup, setup_host, host_name_at, fprintf. avoid.
Qed.

Lemma setup_returns_zero : returns_only (fun r => r = 0) (launcher_session_setup env).
Proof.
  intros s a s' t. rewrite setup_unfold.
  destruct (for_loop _ _ _ _) as [[[[[]|c w] s1] t1]|]; congruence.
Qed.

Lemma avoid_send_ctrlmsg w fd msg :
  exits_avoid w (launcher_send_ctrlmsg P env fd msg).
Proof. unfold launcher_send_ctrlmsg, sendto_server. avoid. Qed.

Lemma avoid_signal_handler w : exits_avoid w (launcher_signal_handler P env).
Proof.
  unfold launcher_signal_handler, stop_host, fprintf. avoid.
Qed.

Lemma avoid_deliver_all w ds :
  w <> AtSigint -> exits_avoid w (deliver_all P env ds).
Proof.
  intros Hw. induction ds as [|d ds IH]; simpl; [apply avoid_ret|].
  apply avoid_bind; [|done].
  destruct d as [fd buf|fd|]; simpl.
  - apply avoid_rxmsg_callback.
  - unfold launcher_shutdown_callback, fprintf. avoid.
  - destruct (sigaction_ok env); [apply avoid_signal_handler|].
    by apply avoid_exit.
Qed.

Lemma avoid_start_loop w n : forall i r, exits_avoid w (start_loop P env n i r).
Proof.
  induction n as [|n IH]; intros i r; simpl; [apply avoid_ret|].
  apply avoid_bind; [|intros r'; apply IH].
  unfold start_host, host_name_at, sendto_server, fprintf. avoid.
Qed.

Lemma avoid_session_start w :
  w <> AtSigint -> exits_avoid w (launcher_session_start P env).
Proof.
  intros Hw. unfold launcher_session_start, comlink_client_start.
  apply avoid_bind; [apply avoid_get|]. intros s.
  apply avoid_bind; [apply avoid_start_loop|]. intros r.
  apply avoid_bind; [|intros _; apply avoid_ret].
  apply avoid_bind; [apply avoid_emit|]. intros _. by apply avoid_deliver_all.
Qed.

Lemma avoid_parse_cmdline w argv : exits_avoid w (parse_cmdline P argv).
Proof.
  unfold parse_cmdline, usage, arg, strcpy, fprintf. avoid.
Qed.

Lemma avoid_read_hosts w fuel : forall j fp,
  exits_avoid w (read_hosts P env fuel j fp).
Proof.
  induction fuel as [|fuel IH]; intros j fp; simpl.
  - destruct (fgets _ fp) as [[buffer fp']|]; avoid.
  - destruct (fgets _ fp) as [[buffer fp']|]; [|apply avoid_ret].
    apply avoid_bind; [|intros _; apply IH].
    unfold read_host_line, alloc_host_entry, slot_index, store_hostname,
      host_name_at, fprintf.
    avoid.
Qed.

Lemma avoid_parse_hostfile w file :
  w <> AtHostfileOpen -> exits_avoid w (parse_hostfile P env file).
Proof.
  intros Hw. unfold parse_hostfile, fprintf.
  destruct (fopen env file) as [contents|].
  - apply avoid_bind; [apply avoid_modify|]. intros _.
    apply avoid_bind; [apply avoid_read_hosts|]. intros _. avoid.
  - apply avoid_bind; [apply avoid_emit|]. intros _. by apply avoid_exit.
Qed.

End ExitSitesOfTheLauncher.

(** ** Dispatch *)

Section Dispatch.

Variable P : platform.
Variable env : environment.

Lemma start_host_spec i s h :
  host_info s !! i = Some (Some h) ->
  exists r, start_host P env i s = Some (Done r, s, dispatch_trace_of P env s i).
Proof.
  intros Hh. unfold dispatch_trace_of, dispatch_messages, start_status.
  rewrite Hh.
  unfold start_host, host_name_at, bind at 1, bind at 1, read_host_slot.
  rewrite Hh. simpl.
  unfold bind, fprintf, emit, get, sendto_server, launcher_send_ctrlmsg,
    fill_header, ret. simpl.
  destruct (comlink_sendto_server env (Z.of_nat i) _ (PStr "start") _ =? -1);
    eexists; reflexivity.
Qed.

Lemma start_loop_spec n : forall i r s,
  (forall j, (i <= j < i + n)%nat -> exists h, host_info s !! j = Some (Some h)) ->
  exists r', start_loop P env n i r s = Some (Done r', s, dispatch_trace P env s i n).
Proof.
  induction n as [|n IH]; intros i r s Hh.
  - exists r. reflexivity.
  - destruct (Hh i ltac:(lia)) as [h Hi].
    destruct (start_host_spec i s h Hi) as [r1 H1].
    destruct (IH (S i) r1 s) as [r2 H2]. { intros j Hj. apply Hh. lia. }
    exists r2. simpl. unfold bind. rewrite H1, H2. reflexivity.
Qed.

Lemma sent_to_dispatch_trace_of s i j :
  List.filter (sent_to (Z.of_nat j)) (dispatch_trace_of P env s i) =
    if decide (i = j) then List.filter is_send (dispatch_trace_of P env s i) else [].
Proof.
  unfold dispatch_trace_of.
  destruct (host_info s !! i) as [[h|]|]; [|by case_decide|by case_decide].
  unfold dispatch_messages, ctrl_send.
  case_decide as Hij.
  - subst. destruct (start_status P env j =? -1); simpl; by rewrite Z.eqb_refl.
  - assert ((Z.of_nat i =? Z.of_nat j) = false) as Hne by (apply Z.eqb_neq; lia).
    destruct (start_status P env i =? -1); simpl; by rewrite Hne.
Qed.

Lemma sent_to_dispatch_trace s j n : forall i,
  List.filter (sent_to (Z.of_nat j)) (dispatch_trace P env s i n) =
    if decide (i <= j < i + n)%nat
    then List.filter is_send (dispatch_trace_of P env s j) else [].
Proof.
  induction n as [|n IH]; intros i.
  - simpl. case_decide; [lia|done].
  - unfold dispatch_trace in *. simpl. rewrite List.filter_app, IH.
    rewrite sent_to_dispatch_trace_of.
    destruct (decide (i = j)) as [->|Hne].
    + rewrite decide_False, decide_True by lia. by rewrite app_nil_r.
    + simpl. repeat case_decide; first [done | lia].
Qed.

End Dispatch.

Section WaitPhase.

Variable P : platform.
Variable env : environment.

Lemma cleanup_total s :
  slots_in_range s ->
  exists s' t,
    launcher_session_cleanup s = Some (Done tt, s', t) /\
    slots_in_range s' /\ nr_active s' = nr_active s.
Proof.
  intros Hr. destruct (valid s) eqn:Hv.
  - rewrite cleanup_valid by done. eexists _, _. split; [reflexivity|].
    unfold slots_in_range in *. simpl. by rewrite length_clear_slots.
  - rewrite cleanup_invalid by done. by eexists _, _.
Qed.

Lemma deliver_total d s :
  slots_in_range s ->
  exists r s' t,
    deliver P env d s = Some (r, s', t) /\
    slots_in_range s' /\ nr_active s' = nr_active s.
Proof.
  intros Hr. destruct d as [fd buf|fd|]; simpl.
  - rewrite rxmsg_callback_spec. cbv zeta.
    destruct (nr_active s <=? _); [|by eexists _, _, _].
    destruct (cleanup_total (set_nr_ackd (int_wrap (nr_ackd s + 1)) s) Hr)
      as (s' & t & -> & Hr' & Hn'). by eexists _, _, _.
  - unfold launcher_shutdown_callback, bind, fprintf, emit.
    destruct (0 <? fd); by eexists _, _, _.
  - destruct (sigaction_ok env); [|by eexists _, _, _].
    rewrite signal_handler_spec.
    destruct (cleanup_total s Hr) as (s' & t & -> & Hr' & Hn').
    by eexists _, _, _.
Qed.

Lemma deliver_all_total ds : forall s,
  slots_in_range s ->
  exists r s' t,
    deliver_all P env ds s = Some (r, s', t) /\ nr_active s' = nr_active s.
Proof.
  induction ds as [|d ds IH]; intros s Hr; simpl.
  - by eexists _, _, _.
  - destruct (deliver_total d s Hr) as (r & s1 & t1 & Hd & Hr1 & Hn1).
    unfold bind. rewrite Hd. destruct r as [[]|c w]; [|by eexists _, _, _].
    destruct (IH s1 Hr1) as (r2 & s2 & t2 & -> & Hn2).
    eexists _, _, _. split; [reflexivity|]. congruence.
Qed.

Lemma session_ready_allocated s :
  session_ready s = true ->
  forall j, (j < Z.to_nat (host_count s))%nat ->
    exists h, host_info s !! j = Some (Some h).
Proof.
  unfold session_ready. intros Hready j Hj.
  apply andb_true_iff in Hready as [Hready _].
  apply andb_true_iff in Hready as [Hall _].
  rewrite forallb_forall in Hall. specialize (Hall j).
  destruct (host_info s !! j) as [[h|]|]; [by exists h| |];
    exfalso; (assert (false = true) as Hff; [|discriminate Hff]);
    apply Hall, in_seq; lia.
Qed.

Lemma session_ready_slots s : session_ready s = true -> slots_in_range s.
Proof.
  intros Hready. unfold slots_in_range.
  destruct (Z.to_nat (host_count s)) as [|n] eqn:En; [lia|].
  destruct (session_ready_allocated s Hready n ltac:(lia)) as [h Hh].
  apply lookup_lt_Some in Hh. lia.
Qed.

Lemma is_send_dispatch_trace s n : forall i,
  (forall j, (i <= j < i + n)%nat -> exists h, host_info s !! j = Some (Some h)) ->
  List.filter is_send (dispatch_trace P env s i n)
    = flat_map (dispatch_messages P s) (seq i n).
Proof.
  induction n as [|n IH]; intros i Hh; [done|].
  unfold dispatch_trace in *. simpl. rewrite List.filter_app, IH.
  - f_equal. destruct (Hh i ltac:(lia)) as [h Hi].
    unfold dispatch_trace_of. rewrite Hi. simpl.
    by destruct (start_status P env i =? -1).
  - intros j Hj. apply Hh. lia.
Qed.

End WaitPhase.

(** C6 (as amended).  Dispatch handles every host entry below
    [host_count], in slot order and whether or not the slot has a
    connection: for each of them the controller sends exactly three
    messages, PROC_INSTANCES, then EXEC_FILENAME, then the control command
    "start", and nothing else is sent before the event loop is entered. *)
Theorem dispatch_three_messages_per_host (P : platform) (env : environment)
    (s : launcher_session_t) :
  session_ready s = true ->
  let n := Z.to_nat (host_count s) in
  let t := dispatch_trace P env s 0 n in
  (exists r, start_loop P env n 0 0 s = Some (Done r, s, t)) /\
  (exists r s' t', launcher_session_start P env s
                     = Some (r, s', t ++ EClientStart :: t')) /\
  List.filter is_send t = flat_map (dispatch_messages P s) (seq 0 n) /\
  (forall j, List.filter (sent_to (Z.of_nat j)) t =
     if decide (j < n)%nat then dispatch_messages P s j else []).
Proof.
  intros Hready n t.
  pose proof (session_ready_allocated s Hready) as Halloc.
  destruct (start_loop_spec P env n 0 0 s) as [r Hrun].
  { intros j Hj. apply Halloc. lia. }
  split; [by exists r|]. split; [|split].
  - destruct (deliver_all_total P env (deliveries env) s
                (session_ready_slots s Hready)) as (r2 & s2 & t2 & Hd & _).
    unfold launcher_session_start, bind at 1, get. unfold bind at 1.
    fold n. rewrite Hrun.
    unfold comlink_client_start, bind, emit. rewrite Hd.
    destruct r2 as [[]|c w]; eexists _, _, _; simpl; reflexivity.
  - apply is_send_dispatch_trace. intros j Hj. apply Halloc. lia.
  - intros j. subst t. rewrite sent_to_dispatch_trace.
    destruct (decide (j < n)%nat) as [Hj|Hj].
    + rewrite decide_True by lia.
      destruct (Halloc j Hj) as [h Hh].
      unfold dispatch_trace_of. rewrite Hh. simpl.
      by destruct (start_status P env j =? -1).
    + by rewrite decide_False by lia.
Qed.

(** ** The host file *)

Lemma append_cons c (a b : string) :
  (String c a +:+ b)%string = String c (a +:+ b)%string.
Proof. reflexivity. Qed.

Lemma append_nil_r (a : string) : (a +:+ EmptyString)%string = a.
Proof.
  induction a as [|c a IH]; [done|]. by rewrite append_cons, IH.
Qed.

Lemma fgets_chars_spec k : forall fp b fp',
  fgets_chars k fp = (b, fp') ->
  (b +:+ fp')%string = fp /\ (String.length b <= k)%nat /\
  ((1 <= k)%nat -> fp <> EmptyString -> (1 <= String.length b)%nat).
Proof.
  induction k as [|k IH]; intros fp b fp'; simpl.
  - intros [= <- <-]. repeat split; [done|lia].
  - destruct fp as [|c rest].
    { intros [= <- <-]. split; [done|]. split; [simpl; lia|done]. }
    destruct (Ascii.eqb c newline).
    + intros [= <- <-]. simpl. repeat split; lia.
    + destruct (fgets_chars k rest) as [l r] eqn:E. intros [= <- <-].
      destruct (IH _ _ _ E) as (Happ & Hlen & _). simpl.
      rewrite append_cons, Happ. repeat split; lia.
Qed.

Lemma length_append (a b : string) :
  String.length (a +:+ b) = (String.length a + String.length b)%nat.
Proof.
  induction a as [|c a IH]; [done|]. rewrite append_cons. simpl. by rewrite IH.
Qed.

Lemma fgets_spec n fp b fp' :
  (2 <= n)%nat -> fgets n fp = Some (b, fp') ->
  (b +:+ fp')%string = fp /\
  (1 <= String.length b <= n - 1)%nat /\
  (String.length fp' < String.length fp)%nat.
Proof.
  intros Hn. unfold fgets. destruct fp as [|c rest]; [done|].
  intros [= H]. destruct (fgets_chars_spec _ _ _ _ H) as (Happ & Hle & Hge).
  specialize (Hge ltac:(lia) ltac:(done)).
  split; [done|]. split; [lia|].
  rewrite <- Happ, length_append. lia.
Qed.

Lemma file_chunks_spec n fuel : forall fp,
  (2 <= n)%nat -> (String.length fp <= fuel)%nat ->
  String.concat EmptyString (file_chunks fuel n fp) = fp /\
  Forall (fun b => (1 <= String.length b <= n - 1)%nat) (file_chunks fuel n fp).
Proof.
  induction fuel as [|fuel IH]; intros fp Hn Hlen.
  - destruct fp; [by split|simpl in Hlen; lia].
  - simpl. destruct (fgets n fp) as [[b fp']|] eqn:E.
    + destruct (fgets_spec n fp b fp' Hn E) as (Happ & Hb & Hlt).
      destruct (IH fp' Hn ltac:(lia)) as (Hcat & Hall).
      split; [|by constructor].
      simpl. destruct (file_chunks fuel n fp') as [|b2 bs] eqn:Ec.
      * simpl in Hcat. subst fp'. by rewrite append_nil_r in Happ.
      * rewrite Hcat. exact Happ.
    + unfold fgets in E. destruct fp; [by split|done].
Qed.

Section HostFile.

Variable P : platform.
Variable env : environment.

Lemma read_host_line_spec j buffer s :
  0 <= host_count s < INT_MAX ->
  (Z.to_nat (host_count s) < length (host_info s))%nat ->
  read_host_line env j buffer s =
    Some (Done tt,
          (if malloc_ok env j
           then set_host_count (host_count s + 1)
                  (set_host_info
                     (<[Z.to_nat (host_count s) :=
                          Some {| hostname := c_str buffer |}]> (host_info s)) s)
           else set_host_info
                  (<[Z.to_nat (host_count s) := None]> (host_info s)) s),
          hostfile_log env j [buffer]).
Proof.
  intros Hc Hlen.
  destruct (lookup_lt_is_Some_2 (host_info s) _ Hlen) as [p0 Hp0].
  assert (Hneg : (host_count s <? 0) = false) by (apply Z.ltb_ge; lia).
  unfold read_host_line, bind at 1, get. unfold bind at 1.
  unfold alloc_host_entry, bind at 1, slot_index. rewrite Hneg. simpl.
  destruct (malloc_ok env j).
  - unfold store_hostname, host_name_at, fprintf, slot_index, bind,
      write_host_slot, ret, get, read_host_slot, emit, modify. simpl.
    rewrite Hp0. simpl. rewrite Hneg. simpl.
    repeat (first [ rewrite list_insert_insert_eq
                  | rewrite list_lookup_insert_eq
                      by (rewrite ?length_insert; lia) ]; simpl).
    rewrite int_wrap_id by (unfold in_int, INT_MIN, INT_MAX in *; lia).
    reflexivity.
  - unfold bind, write_host_slot, ret, fprintf, emit. simpl.
    rewrite Hp0. reflexivity.
Qed.

Lemma hostfile_frame s s' :
  s' = set_host_info (host_info s') (set_host_count (host_count s') s) ->
  valid s' = valid s /\ nr_active s' = nr_active s /\ nr_ackd s' = nr_ackd s /\
  skt_conns s' = skt_conns s /\ instances s' = instances s /\
  exe_name s' = exe_name s /\ host_file s' = host_file s.
Proof. intros ->. by repeat split. Qed.

Lemma read_hosts_spec fuel : forall j fp s,
  let bs := file_chunks fuel (MAX_HOSTNAME_LEN P) fp in
  (2 <= MAX_HOSTNAME_LEN P)%nat ->
  (String.length fp <= fuel)%nat ->
  0 <= host_count s ->
  (Z.to_nat (host_count s) + length bs <= length (host_info s))%nat ->
  host_count s + Z.of_nat (length bs) <= INT_MAX ->
  exists s',
    read_hosts P env fuel j fp s = Some (Done tt, s', hostfile_log env j bs) /\
    host_count s' = host_count s + Z.of_nat (length (stored env j bs)) /\
    length (host_info s') = length (host_info s) /\
    (forall i, (i < Z.to_nat (host_count s))%nat ->
       host_info s' !! i = host_info s !! i) /\
    (forall k b, stored env j bs !! k = Some b ->
       host_info s' !! (Z.to_nat (host_count s) + k)%nat
         = Some (Some {| hostname := c_str b |})) /\
    s' = set_host_info (host_info s') (set_host_count (host_count s') s).
Proof.
  induction fuel as [|fuel IH]; intros j fp s bs Hn Hfuel Hc Hcap Hmax.
  - destruct fp; [|simpl in Hfuel; lia]. exists s. simpl.
    repeat split; first [lia | done | by destruct s].
  - subst bs. simpl in *.
    destruct (fgets (MAX_HOSTNAME_LEN P) fp) as [[b fp']|] eqn:E.
    2:{ exists s. simpl. repeat split; first [lia | done | by destruct s]. }
    destruct (fgets_spec _ _ _ _ Hn E) as (_ & _ & Hlt).
    simpl in Hcap, Hmax.
    rewrite Nat2Z.inj_succ in Hmax.
    unfold bind. rewrite read_host_line_spec by lia.
    destruct (malloc_ok env j) eqn:Em.
    + destruct (IH (S j) fp'
                  (set_host_count (host_count s + 1)
                     (set_host_info
                        (<[Z.to_nat (host_count s) :=
                             Some {| hostname := c_str b |}]> (host_info s)) s)))
        as (s' & Hrun & Hcount & Hl & Hlow & Hent & Hf);
        simpl; rewrite ?length_insert; try lia.
      simpl in Hcount, Hl, Hlow, Hent, Hrun.
      rewrite length_insert in Hl.
      exists s'. rewrite Hrun, Em. split; [reflexivity|].
      split; [rewrite Hcount; cbn [app length]; lia|]. split; [done|].
      split; [|split].
      * intros i Hi. rewrite Hlow by lia.
        by rewrite list_lookup_insert_ne by lia.
      * intros [|k] b0 Hk; simpl in Hk.
        -- injection Hk as <-. rewrite Nat.add_0_r, Hlow by lia.
           by rewrite list_lookup_insert_eq by lia.
        -- replace (Z.to_nat (host_count s) + S k)%nat
             with (Z.to_nat (host_count s + 1) + k)%nat by lia.
           by apply Hent.
      * rewrite Hf at 1. by destruct s.
    + destruct (IH (S j) fp'
                  (set_host_info
                     (<[Z.to_nat (host_count s) := None]> (host_info s)) s))
        as (s' & Hrun & Hcount & Hl & Hlow & Hent & Hf);
        simpl; rewrite ?length_insert; try lia.
      simpl in Hcount, Hl, Hlow, Hent, Hrun.
      rewrite length_insert in Hl.
      exists s'. rewrite Hrun, Em. split; [reflexivity|].
      split; [done|]. split; [done|]. split; [|split].
      * intros i Hi. rewrite Hlow by lia.
        by rewrite list_lookup_insert_ne by lia.
      * done.
      * rewrite Hf at 1. by destruct s.
Qed.

End HostFile.

(** C9 (as amended).  The registry never rejects a host name for its
    length: [fgets] hands a line that is longer than the storage bound to
    the registry in pieces of at most [MAX_HOSTNAME_LEN - 1] characters,
    the pieces make up the whole file, and each piece for which the
    allocation succeeds becomes a host entry of its own, in file order;
    no stored name exceeds the bound.  Adding an entry fails only when the
    allocation fails, and then the piece is skipped.  (Stated for files
    whose pieces fit the host array.) *)
Theorem hostfile_pieces_are_entries (P : platform) (env : environment)
    (file contents : string) (s : launcher_session_t) :
  let bs := file_chunks (String.length contents) (MAX_HOSTNAME_LEN P) contents in
  fopen env file = Some contents ->
  (2 <= MAX_HOSTNAME_LEN P)%nat ->
  (length bs <= length (host_info s))%nat ->
  Z.of_nat (length bs) <= INT_MAX ->
  String.concat EmptyString bs = contents /\
  Forall (fun b => (1 <= String.length b <= MAX_HOSTNAME_LEN P - 1)%nat) bs /\
  exists s',
    parse_hostfile P env file s
      = Some (Done (Z.of_nat (length (stored env 0 bs))), s',
              hostfile_log env 0 bs) /\
    host_count s' = Z.of_nat (length (stored env 0 bs)) /\
    (forall k b, stored env 0 bs !! k = Some b ->
       host_info s' !! k = Some (Some {| hostname := c_str b |})).
Proof.
  intros bs Hopen Hn Hcap Hmax.
  destruct (file_chunks_spec (MAX_HOSTNAME_LEN P) (String.length contents)
              contents Hn ltac:(lia)) as (Hcat & Hall).
  split; [done|]. split; [done|].
  destruct (read_hosts_spec P env (String.length contents) 0 contents
              (set_host_count 0 s))
    as (s' & Hrun & Hcount & _ & _ & Hent & _); simpl; try lia; try done.
  exists s'. unfold parse_hostfile. rewrite Hopen.
  unfold bind, modify, get, ret. simpl in Hrun. rewrite Hrun. simpl.
  simpl in Hcount. rewrite Hcount, app_nil_r. fold bs.
  split; [reflexivity|]. split; [done|].
  intros k b Hk. by apply (Hent k b).
Qed.

(** ** Concrete runs *)

(** C1, counterexample.  After a setup in which no host connects the
    session is valid with [nr_active = 0]; the first status report runs
    the teardown although [nr_ackd = 1] differs from [nr_active = 0]. *)
Lemma cleanup_fires_with_unequal_counts :
  exists s1 t1 s2 t2,
    launcher_session_setup env_none_connect one_host = Some (Done 0, s1, t1) /\
    valid s1 = true /\ nr_active s1 = 0 /\
    launcher_rxmsg_callback 0 "exit 0" s1 = Some (Done tt, s2, t2) /\
    cleanup_ran t2 = true /\
    nr_ackd s2 = 1 /\ nr_active s2 = 0 /\ nr_ackd s2 <> nr_active s2.
Proof.
  do 4 eexists. split; [vm_compute; reflexivity|].
  split; [reflexivity|]. split; [reflexivity|].
  split; [vm_compute; reflexivity|]. by repeat split.
Qed.

(** Witness of C1: two hosts connected, reports from both. *)
Lemma cleanup_fires_at_completion_witness :
  valid two_connected = true /\
  exists s1 t1 s2 t2,
    status_reports [(5, "exit 0")] two_connected = Some (Done tt, s1, t1) /\
    launcher_rxmsg_callback 6 "exit 0" s1 = Some (Done tt, s2, t2) /\
    cleanup_ran t2 = true /\ nr_ackd s2 = nr_active s2.
Proof.
  split; [reflexivity|].
  destruct (cleanup_fires_at_completion two_connected [(5, "exit 0")] 6 "exit 0")
    as (s1 & t1 & s2 & t2 & H1 & H2 & _ & _ & Hiff & _ & Heq).
  - reflexivity.
  - unfold slots_in_range. simpl. lia.
  - unfold in_int, INT_MIN, INT_MAX. simpl. lia.
  - unfold INT_MAX. simpl. lia.
  - assert (Hran : cleanup_ran t2 = true) by (apply Hiff; reflexivity).
    exists s1, t1, s2, t2. repeat split; try done.
    apply Heq; [done|]. simpl. lia.
Defined.

(** Witness of C3: completion first, then the interrupt. *)
Lemma cleanup_idempotent_witness :
  (Z.to_nat (host_count two_connected) <= length (host_info two_connected))%nat /\
  exists s1 t1 t2,
    teardown lp64 env_all_connect ByCompletion two_connected
      = Some (Done tt, s1, t1) /\
    teardown lp64 env_all_connect ByInterrupt s1 = Some (Done tt, s1, t2) /\
    teardown_work t1 = [EFree 0; EFree 1; EClientShutdown] /\
    teardown_work t2 = [].
Proof.
  split; [simpl; lia|].
  destruct (cleanup_idempotent lp64 env_all_connect ByCompletion ByInterrupt
              two_connected)
    as (s1 & t1 & t2 & H1 & H2 & _ & Hw1 & Hw2 & _).
  - simpl. lia.
  - exists s1, t1, t2. by repeat split.
Defined.

(** C4, counterexample.  One host connects and reports, which cleans the
    session up; a second report arriving afterwards takes [nr_ackd] from
    1 to 2. *)
Lemma late_report_increments_counter :
  exists s1 t1 s2 t2 s3 t3,
    launcher_session_setup env_all_connect one_host = Some (Done 0, s1, t1) /\
    launcher_rxmsg_callback 5 "exit 0" s1 = Some (Done tt, s2, t2) /\
    valid s2 = false /\ nr_ackd s2 = 1 /\
    launcher_rxmsg_callback 5 "again" s2 = Some (Done tt, s3, t3) /\
    nr_ackd s3 = 2.
Proof.
  do 6 eexists. split; [vm_compute; reflexivity|].
  split; [vm_compute; reflexivity|]. split; [reflexivity|].
  split; [reflexivity|]. split; [vm_compute; reflexivity|]. reflexivity.
Qed.

(** Witness of C4: the session right after a setup. *)
Lemma ack_invariant_witness :
  exists s, reachable lp64 s /\ valid s = true /\ nr_ackd s <= nr_active s.
Proof.
  assert (Hr : reachable lp64
                 (set_cl_params (setup_params 167772161)
                    (set_skt_conns [5; 0; 0; 0]
                       (set_nr_active 1 (set_valid true one_host))))).
  { apply (reach_setup lp64 env_all_connect one_host 0 _ []).
    - unfold in_int, INT_MIN, INT_MAX. simpl. lia.
    - vm_compute. reflexivity. }
  eexists. split; [exact Hr|]. split; [reflexivity|].
  by apply (ack_invariant lp64 _ Hr).
Defined.

(** C6, counterexample.  Slot 0 fails to connect and slot 1 gets handle
    7.  Dispatch still sends the three messages for slot 0, which has no
    connection, and it addresses those of slot 1 to 1, not to 7. *)
Lemma dispatch_ignores_connection_state :
  exists s1 t1 r t,
    launcher_session_setup env_second_connects two_hosts
      = Some (Done 0, s1, t1) /\
    skt_conns s1 = [-1; 7; 0; 0] /\ nr_active s1 = 1 /\
    connected env_second_connects (host_info two_hosts) 0 = false /\
    start_loop lp64 env_second_connects 2 0 0 s1 = Some (Done r, s1, t) /\
    List.filter (sent_to 0) t = dispatch_messages lp64 s1 0 /\
    List.filter (sent_to 1) t = dispatch_messages lp64 s1 1 /\
    List.filter (sent_to 7) t = [].
Proof.
  do 4 eexists. split; [vm_compute; reflexivity|].
  split; [reflexivity|]. split; [reflexivity|]. split; [reflexivity|].
  split; [vm_compute; reflexivity|]. by repeat split.
Qed.

(** Witness of C6: the same two hosts. *)
Lemma dispatch_three_messages_per_host_witness :
  session_ready two_connected = true /\
  List.filter (sent_to 1)
    (dispatch_trace lp64 env_all_connect two_connected 0 2)
  = [ ESend 1 {| type := PROC_INSTANCES; len := 4 |} (PInt 4) 4;
      ESend 1 {| type := EXEC_FILENAME; len := 8 |} (PStr "/bin/app") 8;
      ESend 1 {| type := CTRL_MESSAGE; len := 8 |} (PStr "start") 8 ].
Proof.
  split; [reflexivity|].
  destruct (dispatch_three_messages_per_host lp64 env_all_connect two_connected)
    as (_ & _ & _ & Hper); [reflexivity|].
  exact (Hper 1%nat).
Defined.

(** C7, counterexample.  The name of the first of two hosts does not
    resolve.  Setup skips it and connects the second, and it prints
    nothing: the failed resolution is not logged. *)
Lemma unresolved_host_is_not_logged :
  hostname_to_netaddr env_first_unresolved 0 ("alpha" +:+ nl) = None /\
  launcher_session_setup env_first_unresolved two_hosts
    = Some (Done 0,
            set_cl_params (setup_params 167772162)
              (set_skt_conns [0; 6; 0; 0]
                 (set_nr_active 1 (set_valid true two_hosts))),
            []).
Proof. split; [reflexivity|]. vm_compute. reflexivity. Qed.

(** Witness of C7: of two hosts, the second one connects. *)
Lemma setup_counts_connected_witness :
  1 <= host_count two_hosts /\ session_ready two_hosts = true /\
  exists s',
    launcher_session_setup env_second_connects two_hosts
      = Some (Done 0, s', [EPrint stderr (LogSetupFailed 167772161)]) /\
    nr_active s' = 1.
Proof.
  split; [simpl; lia|]. split; [reflexivity|].
  destruct (setup_counts_connected env_second_connects two_hosts)
    as (s' & Hrun & Hn & _); [simpl; lia|reflexivity|].
  exists s'. split; [exact Hrun|exact Hn].
Defined.

(** C9, counterexample.  A line of 80 characters exceeds the 64-byte
    bound.  [parse_hostfile] reports no error: it returns 2, having stored
    the first 63 characters as one host and the rest as another. *)
Lemma long_hostname_is_split_not_rejected :
  (Z.of_nat (MAX_HOSTNAME_LEN lp64) < strlen long_name) /\
  exists s',
    parse_hostfile lp64 env_long_line "hosts" (launcher_session lp64)
      = Some (Done 2, s',
              [ EPrint stdout (LogHostName
                  "node-0001.rack-0002.row-0003.hall-0004.site-0005.region-0006.ex");
                EPrint stdout (LogHostName ("ample-cluster.org" +:+ nl)) ]) /\
    host_count s' = 2.
Proof.
  split; [vm_compute; reflexivity|].
  eexists. split; [vm_compute; reflexivity|reflexivity].
Qed.

(** Witness of C9: the same file. *)
Lemma hostfile_pieces_are_entries_witness :
  fopen env_long_line "hosts" = Some (long_name +:+ nl) /\
  exists s',
    parse_hostfile lp64 env_long_line "hosts" (launcher_session lp64)
      = Some (Done 2, s',
              hostfile_log env_long_line 0
                (file_chunks 81 64 (long_name +:+ nl))).
Proof.
  split; [reflexivity|].
  destruct (hostfile_pieces_are_entries lp64 env_long_line "hosts"
              (long_name +:+ nl) (launcher_session lp64))
    as (_ & _ & s' & Hrun & _).
  - reflexivity.
  - simpl. lia.
  - vm_compute. lia.
  - vm_compute. discriminate.
  - exists s'. exact Hrun.
Defined.

(** C2.  Both hosts connect; the start command to the second one fails.
    Dispatch prints that the host will be ignored and leaves the session
    as it was, [nr_active = 2] included.  When the first host then
    reports, [nr_ackd = 1 < 2]: no teardown runs and the session stays
    valid, waiting for the host that never started. *)
Theorem start_failure_host_still_counted :
  exists s1 t1 r t s2 t2,
    launcher_session_setup env_start_fails two_hosts = Some (Done 0, s1, t1) /\
    nr_active s1 = 2 /\
    start_loop lp64 env_start_fails 2 0 0 s1 = Some (Done r, s1, t) /\
    start_status lp64 env_start_fails 1 = -1 /\
    List.filter (fun e => negb (is_send e)) t =
      [ EPrint stdout (LogHost 0 ("alpha" +:+ nl));
        EPrint stdout (LogHost 1 ("beta" +:+ nl));
        EPrint stderr LogStartFailed ] /\
    launcher_rxmsg_callback 5 "exit 0" s1 = Some (Done tt, s2, t2) /\
    valid s2 = true /\ cleanup_ran t2 = false /\
    nr_ackd s2 = 1 /\ nr_active s2 = 2.
Proof.
  do 6 eexists. split; [vm_compute; reflexivity|]. split; [reflexivity|].
  split; [vm_compute; reflexivity|]. split; [reflexivity|].
  split; [reflexivity|]. split; [vm_compute; reflexivity|]. by repeat split.
Qed.

(** C5.  The length field of a control command is the size of a pointer,
    whatever the command: 8 on a 64-bit platform, where "start" has 5
    characters and "stop" has 4. *)
Theorem ctrlmsg_length_is_pointer_size :
  (forall P env fd msg s,
     launcher_send_ctrlmsg P env fd msg s =
       Some (Done (comlink_sendto_server env fd
                     {| type := CTRL_MESSAGE; len := sizeof_char_ptr P |}
                     (PStr msg) (sizeof_char_ptr P)),
             s,
             [ESend fd {| type := CTRL_MESSAGE; len := sizeof_char_ptr P |}
                (PStr msg) (sizeof_char_ptr P)])) /\
  (forall fd s,
     launcher_send_ctrlmsg lp64 env_all_connect fd "start" s =
       Some (Done 0, s,
             [ESend fd {| type := CTRL_MESSAGE; len := 8 |} (PStr "start") 8])) /\
  strlen "start" = 5 /\ strlen "stop" = 4.
Proof. by repeat split. Qed.

(** C8.  The range test of [parse_cmdline] never rejects: no integer is
    both negative and greater than [MAX_INSTANCES].  Instance counts of
    1000, 0 and -5 are accepted with status 0. *)
Theorem parse_cmdline_accepts_any_count :
  (forall z, ((z <? 0) && (MAX_INSTANCES <? z))%bool = false) /\
  parse_cmdline lp64
    ["launcher"; "-np"; "1000"; "-hostfile"; "hosts"; "/bin/app"]
    (launcher_session lp64)
  = Some (Done 0,
          set_exe_name "/bin/app"
            (set_host_file "hosts" (set_instances 1000 (launcher_session lp64))),
          [EPrint stdout (LogCmdline 1000 "hosts" "/bin/app")]) /\
  MAX_INSTANCES < 1000 /\
  parse_cmdline lp64
    ["launcher"; "-np"; "0"; "-hostfile"; "hosts"; "/bin/app"]
    (launcher_session lp64)
  = Some (Done 0,
          set_exe_name "/bin/app"
            (set_host_file "hosts" (set_instances 0 (launcher_session lp64))),
          [EPrint stdout (LogCmdline 0 "hosts" "/bin/app")]) /\
  parse_cmdline lp64
    ["launcher"; "-np"; "-5"; "-hostfile"; "hosts"; "/bin/app"]
    (launcher_session lp64)
  = Some (Done 0,
          set_exe_name "/bin/app"
            (set_host_file "hosts" (set_instances (-5) (launcher_session lp64))),
          [EPrint stdout (LogCmdline (-5) "hosts" "/bin/app")]).
Proof.
  split; [|by repeat split].
  intros z. unfold MAX_INSTANCES.
  destruct (z <? 0) eqn:E1; [|done]. simpl.
  apply Z.ltb_lt in E1. apply Z.ltb_ge. lia.
Qed.

(** A whole run in which the only host fails to connect: [main] goes
    through dispatch and the wait phase with [nr_active = 0] and returns
    0 after the final cleanup. *)
Example main_without_connections :
  exists s',
    main lp64 env_none_connect
      ["launcher"; "-np"; "4"; "-hostfile"; "hosts"; "/bin/app"]
      (launcher_session lp64)
    = Some (Done 0, s',
            [ EPrint stdout (LogCmdline 4 "hosts" "/bin/app");
              EPrint stdout (LogHostName ("alpha" +:+ nl));
              EPrint stderr (LogSetupFailed 167772161);
              EPrint stdout (LogHost 0 ("alpha" +:+ nl));
              ESend 0 {| type := PROC_INSTANCES; len := 4 |} (PInt 4) 4;
              ESend 0 {| type := EXEC_FILENAME; len := 8 |} (PStr "/bin/app") 8;
              ESend 0 {| type := CTRL_MESSAGE; len := 8 |} (PStr "start") 8;
              EClientStart;
              EFree 0;
              EClientShutdown ]) /\
    nr_active s' = 0 /\ valid s' = false.
Proof. eexists. split; [vm_compute; reflexivity|]. by split. Qed.

(** * Further properties of the launcher *)

(** ** Teardown *)

Lemma elem_of_freed hi n : forall i e,
  e ∈ freed hi i n <->
  exists j, e = EFree j /\ (i <= j < i + n)%nat /\
            exists h, hi !! j = Some (Some h).
Proof.
  induction n as [|n IH]; intros i e; simpl.
  - split; [by intros ?%elem_of_nil|]. intros (j & _ & Hj & _). lia.
  - rewrite elem_of_app, IH. unfold free_of. split.
    + intros [He|(j & -> & Hj & Hh)].
      * destruct (hi !! i) as [[h|]|] eqn:E;
          try by apply elem_of_nil in He.
        apply list_elem_of_singleton in He as ->.
        exists i. split; [done|]. split; [lia|by exists h].
      * exists j. split; [done|]. split; [lia|done].
    + intros (j & -> & Hj & h & Hh).
      destruct (decide (j = i)) as [->|Hne].
      * left. rewrite Hh. by apply list_elem_of_singleton.
      * right. exists j. split; [done|]. split; [lia|by exists h].
Qed.

Lemma NoDup_freed hi n : forall i, NoDup (freed hi i n).
Proof.
  induction n as [|n IH]; intros i; simpl; [constructor|].
  apply NoDup_app. split; [|split; [|apply IH]].
  - unfold free_of. destruct (hi !! i) as [[h|]|];
      [apply NoDup_singleton|constructor|constructor].
  - intros e He Hin. apply elem_of_freed in Hin as (j & -> & Hj & _).
    unfold free_of in He. destruct (hi !! i) as [[h|]|];
      try by apply elem_of_nil in He.
    apply list_elem_of_singleton in He. injection He as ->. lia.
Qed.

(** X1.  A teardown of a valid session leaves no entry pointer behind:
    every slot below [host_count] is NULL afterwards and the slots above
    are untouched; [free] is called once for each slot that held an entry
    and for no other; the transport is shut down last.  The connection
    handles and the two counters are left as they were. *)
Theorem cleanup_clears_every_slot (s : launcher_session_t) :
  valid s = true ->
  slots_in_range s ->
  exists s' frees,
    launcher_session_cleanup s = Some (Done tt, s', frees ++ [EClientShutdown]) /\
    (forall j, (j < Z.to_nat (host_count s))%nat ->
       host_info s' !! j = Some None) /\
    (forall j, (Z.to_nat (host_count s) <= j)%nat ->
       host_info s' !! j = host_info s !! j) /\
    (forall e, e ∈ frees <->
       exists j, e = EFree j /\ (j < Z.to_nat (host_count s))%nat /\
                 exists h, host_info s !! j = Some (Some h)) /\
    NoDup frees /\
    skt_conns s' = skt_conns s /\ nr_active s' = nr_active s /\
    nr_ackd s' = nr_ackd s /\ host_count s' = host_count s.
Proof.
  intros Hv Hr. rewrite cleanup_valid by done.
  eexists _, _. split; [reflexivity|]. simpl.
  split; [|split; [|split; [|split; [apply NoDup_freed|done]]]].
  - intros j Hj. apply clear_slots_lookup; [lia|].
    unfold slots_in_range in Hr. lia.
  - intros j Hj. apply clear_slots_lookup_other. lia.
  - intros e. rewrite elem_of_freed. split.
    + intros (j & -> & Hj & Hh). exists j. split; [done|]. split; [lia|done].
    + intros (j & -> & Hj & Hh). exists j. split; [done|]. split; [lia|done].
Qed.

(** X2.  The SIGINT handler sends one "stop" for every slot below
    [host_count], in slot order and addressed by the slot index, whether
    or not the slot has a connection and whether or not the session was
    already cleaned up; the statuses of these sends are ignored.  Only
    then does it tear the session down, which does the work of a teardown
    if and only if the session was still valid. *)
Theorem signal_handler_stops_then_cleans (P : platform) (env : environment)
    (s : launcher_session_t) :
  slots_in_range s ->
  exists s',
    launcher_signal_handler P env s =
      Some (Done tt, s',
            EPrint stdout LogCtrlC
              :: stops P 0 (Z.to_nat (host_count s))
              ++ (if valid s
                  then freed (host_info s) 0 (Z.to_nat (host_count s))
                         ++ [EClientShutdown]
                  else [])) /\
    valid s' = false /\
    length (stops P 0 (Z.to_nat (host_count s))) = Z.to_nat (host_count s) /\
    (valid s = false -> s' = s).
Proof.
  intros Hr. rewrite signal_handler_spec.
  destruct (valid s) eqn:Hv.
  - rewrite cleanup_valid by done. eexists. split; [reflexivity|].
    split; [done|]. split; [|done].
    unfold stops. by rewrite length_map, length_seq.
  - rewrite cleanup_invalid by done. exists s. split; [reflexivity|].
    split; [done|]. split; [|done].
    unfold stops. by rewrite length_map, length_seq.
Qed.

Lemma shutdown_callback_spec fd s :
  launcher_shutdown_callback fd s = Some (Done tt, s, peer_shutdown_trace fd).
Proof.
  unfold launcher_shutdown_callback, peer_shutdown_trace, bind, fprintf, emit.
  by destruct (0 <? fd).
Qed.

(** X3.  A peer that shuts its connection down is not counted as having
    reported.  Whatever number of peer shutdowns the event loop delivers,
    the session is left exactly as it was, so a valid session stays valid
    with the same [nr_ackd]; each shutdown is logged, and its descriptor
    is closed only when it is positive. *)
Theorem peer_shutdowns_never_complete (P : platform) (env : environment)
    (fds : list Z) (s : launcher_session_t) :
  deliver_all P env (PeerShutdown <$> fds) s =
    Some (Done tt, s, flat_map peer_shutdown_trace fds).
Proof.
  induction fds as [|fd fds IH]; [reflexivity|].
  rewrite fmap_cons. cbn [deliver_all deliver flat_map].
  unfold bind. rewrite shutdown_callback_spec, IH. reflexivity.
Qed.

(** ** Dispatch: the status it returns, and dispatch after a teardown *)

Lemma start_host_value P env i s h :
  host_info s !! i = Some (Some h) ->
  start_host P env i s
    = Some (Done (exec_status env s i), s, dispatch_trace_of P env s i).
Proof.
  intros Hh. unfold dispatch_trace_of, dispatch_messages, start_status,
    exec_status.
  rewrite Hh.
  unfold start_host, host_name_at, bind at 1, bind at 1, read_host_slot.
  rewrite Hh. simpl.
  unfold bind, fprintf, emit, get, sendto_server, launcher_send_ctrlmsg,
    fill_header, ret. simpl.
  by destruct (comlink_sendto_server env (Z.of_nat i) _ (PStr "start") _ =? -1).
Qed.

Lemma start_loop_value P env n : forall i r s,
  (forall j, (i <= j < i + n)%nat -> exists h, host_info s !! j = Some (Some h)) ->
  start_loop P env n i r s
    = Some (Done (match n with
                  | O => r
                  | S n' => exec_status env s (i + n')
                  end),
            s, dispatch_trace P env s i n).
Proof.
  induction n as [|n IH]; intros i r s Hh; [reflexivity|].
  destruct (Hh i ltac:(lia)) as [h Hi].
  simpl. unfold bind. rewrite (start_host_value P env i s h Hi).
  rewrite IH by (intros j Hj; apply Hh; lia).
  destruct n as [|n].
  - by rewrite Nat.add_0_r.
  - by replace (S i + n)%nat with (i + S n)%nat by lia.
Qed.

(** X4.  The status [launcher_session_start] computes is that of one send
    only: the EXEC_FILENAME message of the last host slot (0 when there is
    no slot).  A failed PROC_INSTANCES message, a failed start command and
    any failure for an earlier host leave it unchanged. *)
Theorem start_returns_last_exec_status (P : platform) (env : environment)
    (s : launcher_session_t) :
  session_ready s = true ->
  let n := Z.to_nat (host_count s) in
  let status := match n with
                | O => 0
                | S n' => exec_status env s n'
                end in
  start_loop P env n 0 0 s = Some (Done status, s, dispatch_trace P env s 0 n) /\
  exists r s' t,
    launcher_session_start P env s = Some (r, s', t) /\
    match r with
    | Done v => v = status
    | Exited c w => w = AtSigint
    end.
Proof.
  intros Hready n status.
  pose proof (session_ready_allocated s Hready) as Halloc.
  assert (Hrun : start_loop P env n 0 0 s
                   = Some (Done status, s, dispatch_trace P env s 0 n)).
  { rewrite start_loop_value by (intros j Hj; apply Halloc; lia). done. }
  split; [exact Hrun|].
  destruct (deliver_all_total P env (deliveries env) s
              (session_ready_slots s Hready)) as (r2 & s2 & t2 & Hd & _).
  unfold launcher_session_start, bind at 1, get. unfold bind at 1.
  fold n. rewrite Hrun.
  unfold comlink_client_start, bind, emit. rewrite Hd.
  destruct r2 as [[]|c w] eqn:Er; eexists _, _, _; (split; [reflexivity|]).
  - done.
  - simpl. destruct w; try done; exfalso;
      by eapply (avoid_deliver_all P env _ (deliveries env)); [|exact Hd].
Qed.

Lemma start_host_null P env i s :
  host_info s !! i = Some None -> start_host P env i s = None.
Proof.
  intros Hh. unfold start_host, host_name_at, bind, read_host_slot.
  by rewrite Hh.
Qed.

Lemma setup_host_null env i s :
  host_info s !! i = Some None -> setup_host env i s = None.
Proof.
  intros Hh. unfold setup_host, host_name_at, bind, read_host_slot.
  by rewrite Hh.
Qed.

Lemma start_null_slot P env s :
  host_info s !! 0%nat = Some None -> 1 <= host_count s ->
  launcher_session_start P env s = None.
Proof.
  intros Hh Hn. unfold launcher_session_start, bind at 1, get. unfold bind at 1.
  destruct (Z.to_nat (host_count s)) as [|n] eqn:En; [lia|].
  simpl. unfold bind at 1. by rewrite start_host_null.
Qed.

Lemma setup_null_slot env s :
  host_info s !! 0%nat = Some None -> 1 <= host_count s ->
  launcher_session_setup env s = None.
Proof.
  intros Hh Hn. rewrite setup_unfold.
  destruct (Z.to_nat (host_count s)) as [|n] eqn:En; [lia|].
  simpl. unfold bind at 1. by rewrite setup_host_null.
Qed.

(** X5.  Nothing may use the host entries after a teardown.  On a valid
    session with at least one host, a teardown followed by
    [launcher_session_start] or by [launcher_session_setup] reads the
    host name through the NULL pointer that the teardown stored in slot
    0: the behaviour is undefined.  This is the order of events when
    SIGINT arrives before dispatch begins. *)
Theorem dispatch_after_teardown_is_undefined (P : platform)
    (env : environment) (p : teardown_path) (s : launcher_session_t) :
  valid s = true ->
  slots_in_range s ->
  1 <= host_count s ->
  (teardown P env p ;; launcher_session_start P env) s = None /\
  (teardown P env p ;; launcher_session_setup env) s = None.
Proof.
  intros Hv Hr Hn.
  pose proof (cleanup_valid s Hv Hr) as Hc.
  set (s1 := set_host_info
               (clear_slots 0 (Z.to_nat (host_count s)) (host_info s))
               (set_valid false s)) in *.
  assert (Hnull : host_info s1 !! 0%nat = Some None).
  { simpl. apply clear_slots_lookup; unfold slots_in_range in Hr; lia. }
  assert (Hstart : launcher_session_start P env s1 = None)
    by (by apply start_null_slot).
  assert (Hsetup : launcher_session_setup env s1 = None)
    by (by apply setup_null_slot).
  assert (Hp : exists t, teardown P env p s = Some (Done tt, s1, t)).
  { destruct p; simpl.
    - by eexists.
    - rewrite signal_handler_spec, Hc. by eexists. }
  destruct Hp as [t Hp]. unfold bind. by rewrite Hp, Hstart, Hsetup.
Qed.

(** ** The command line *)

Lemma strncmp_eq_prefix (b : string) : forall a,
  strncmp_eq a b (String.length b) = String.prefix b a.
Proof.
  induction b as [|y b IH]; intros a; [by destruct a|].
  destruct a as [|x a]; [reflexivity|]. simpl. rewrite IH.
  destruct (Ascii.eqb_spec x y) as [->|Hne].
  - by destruct (ascii_dec y y).
  - destruct (ascii_dec y x) as [->|]; [done|reflexivity].
Qed.

Lemma strncmp_eq_empty (a : string) :
  strncmp_eq a EmptyString 1 = is_empty a.
Proof. by destruct a. Qed.

Lemma range_test_never_holds z :
  ((z <? 0) && (MAX_INSTANCES <? z))%bool = false.
Proof.
  unfold MAX_INSTANCES. destruct (z <? 0) eqn:E1; [|done]. simpl.
  apply Z.ltb_lt in E1. apply Z.ltb_ge. lia.
Qed.

(** X6.  With fewer than six arguments [parse_cmdline] prints the usage
    line for the program name and returns -1; it reads no option and
    leaves the session untouched. *)
Theorem parse_cmdline_too_few_arguments (P : platform) (program : string)
    (rest : list string) (s : launcher_session_t) :
  (length rest < 5)%nat ->
  parse_cmdline P (program :: rest) s
    = Some (Done (-1), s, [EPrint stderr (LogUsage program)]).
Proof.
  intros Hlen. unfold parse_cmdline.
  assert ((Z.of_nat (length (program :: rest)) <? MAX_CMD_ARGS) = true) as ->.
  { apply Z.ltb_lt. unfold MAX_CMD_ARGS. rewrite length_cons. lia. }
  reflexivity.
Qed.

Lemma atoi_numeral_value (x : string) : atoi x = int_wrap (numeral_value x).
Proof.
  unfold atoi, numeral_value. destruct (skip_spaces x) as [|c r]; [done|].
  destruct c as [[] [] [] [] [] [] [] []]; reflexivity.
Qed.

Lemma atoi_representable (x : string) :
  in_int (numeral_value x) -> atoi x = numeral_value x.
Proof. intros Hx. by rewrite atoi_numeral_value, int_wrap_id. Qed.

(** X7.  With six or more arguments that fit the buffers, and a count
    that is representable in an [int] when one is given,
    [parse_cmdline] takes [argv[2]] as the instance count when [argv[1]]
    begins with "-np" and [argv[4]] as the host file when [argv[3]] begins
    with "-hostfile" (an option that does not match leaves the field as
    it was), always takes [argv[5]] as the executable, and ignores any
    further argument.  It returns -1, printing nothing, exactly when the
    resulting host file path or executable path is empty; otherwise it
    prints the configuration and returns 0. *)
Theorem parse_cmdline_result (P : platform)
    (a0 a1 a2 a3 a4 a5 : string) (more : list string) (s : launcher_session_t) :
  (String.prefix "-np" a1 = true -> in_int (numeral_value a2)) ->
  (String.prefix "-hostfile" a3 = true ->
   (String.length a4 < HOST_FILE_SIZE P)%nat) ->
  (String.length a5 < EXE_NAME_SIZE P)%nat ->
  let s' := cmdline_session a1 a2 a3 a4 a5 s in
  parse_cmdline P (a0 :: a1 :: a2 :: a3 :: a4 :: a5 :: more) s =
    if (is_empty (host_file s') || is_empty (exe_name s'))%bool
    then Some (Done (-1), s', [])
    else Some (Done 0, s',
               [EPrint stdout
                  (LogCmdline (instances s') (host_file s') (exe_name s'))]).
Proof.
  intros Hnp Hhf Hexe s'. subst s'. unfold parse_cmdline, cmdline_session.
  assert ((Z.of_nat (length (a0 :: a1 :: a2 :: a3 :: a4 :: a5 :: more))
            <? MAX_CMD_ARGS) = false) as ->.
  { apply Z.ltb_ge. unfold MAX_CMD_ARGS. rewrite !length_cons. lia. }
  apply Nat.ltb_lt in Hexe.
  unfold arg, strcpy, bind, ret, modify, get, fprintf, emit.
  cbn -[strncmp_eq atoi Nat.ltb String.length String.prefix].
  change 3%nat with (String.length "-np").
  change 9%nat with (String.length "-hostfile").
  rewrite !strncmp_eq_prefix.
  cbn -[strncmp_eq atoi Nat.ltb String.length String.prefix].
  rewrite ?Hexe.
  destruct (String.prefix "-np" a1);
    destruct (String.prefix "-hostfile" a3);
    try (specialize (Hhf eq_refl); apply Nat.ltb_lt in Hhf; rewrite Hhf);
    cbn -[strncmp_eq atoi Nat.ltb String.length String.prefix];
    rewrite ?Hexe;
    cbn -[strncmp_eq atoi Nat.ltb String.length String.prefix];
    try (specialize (Hnp eq_refl); rewrite !(atoi_representable a2 Hnp));
    rewrite ?strncmp_eq_empty, range_test_never_holds, orb_false_l;
    destruct (is_empty _ || is_empty a5)%bool; reflexivity.
Qed.

(** X8.  [parse_cmdline] copies its arguments with an unchecked [strcpy]:
    an executable path that does not fit [exe_name], terminator included,
    or a host file path that does not fit [host_file], overruns the
    array and the behaviour is undefined. *)
Theorem parse_cmdline_overlong_argument (P : platform)
    (a0 a1 a2 a3 a4 a5 : string) (more : list string) (s : launcher_session_t) :
  (String.prefix "-hostfile" a3 = true /\
   (HOST_FILE_SIZE P <= String.length a4)%nat) \/
  (EXE_NAME_SIZE P <= String.length a5)%nat ->
  parse_cmdline P (a0 :: a1 :: a2 :: a3 :: a4 :: a5 :: more) s = None.
Proof.
  intros Hbig. unfold parse_cmdline.
  assert ((Z.of_nat (length (a0 :: a1 :: a2 :: a3 :: a4 :: a5 :: more))
            <? MAX_CMD_ARGS) = false) as ->.
  { apply Z.ltb_ge. unfold MAX_CMD_ARGS. rewrite !length_cons. lia. }
  unfold arg, strcpy, bind, ret, modify, get, fprintf, emit, undefined.
  cbn -[strncmp_eq atoi Nat.ltb String.length String.prefix].
  change 3%nat with (String.length "-np").
  change 9%nat with (String.length "-hostfile").
  rewrite !strncmp_eq_prefix.
  destruct Hbig as [[Hp Hlen]|Hlen].
  - rewrite Hp. apply Nat.ltb_ge in Hlen. rewrite Hlen.
    by destruct (String.prefix "-np" a1).
  - apply Nat.ltb_ge in Hlen. rewrite Hlen.
    destruct (String.prefix "-np" a1); simpl;
      destruct (String.prefix "-hostfile" a3); simpl;
      try destruct (String.length a4 <? HOST_FILE_SIZE P)%nat; reflexivity.
Qed.

(** ** The host file, line by line *)

Lemma fgets_chars_line l : forall k rest,
  has_newline l = false -> (String.length l < k)%nat ->
  fgets_chars k (l +:+ String newline rest)
    = ((l +:+ String newline EmptyString)%string, rest).
Proof.
  induction l as [|c l IH]; intros k rest Hnl Hlen.
  - destruct k; [simpl in Hlen; lia|]. reflexivity.
  - destruct k; [simpl in Hlen; lia|]. simpl in Hnl, Hlen.
    apply orb_false_iff in Hnl as [Hc Hnl].
    rewrite !append_cons. simpl. rewrite Hc, IH by (done || lia). done.
Qed.

Lemma fgets_chars_last l : forall k,
  has_newline l = false -> (String.length l <= k)%nat ->
  fgets_chars k l = (l, EmptyString).
Proof.
  induction l as [|c l IH]; intros k Hnl Hlen.
  - by destruct k.
  - destruct k; [simpl in Hlen; lia|]. simpl in Hnl, Hlen.
    apply orb_false_iff in Hnl as [Hc Hnl].
    simpl. rewrite Hc, IH by (done || lia). done.
Qed.

Lemma file_chunks_lines n ls : forall last fuel,
  forallb (line_fits n) ls = true ->
  last_fits n last = true ->
  (String.length (unlines ls last) <= fuel)%nat ->
  file_chunks fuel n (unlines ls last) = names_of ls last.
Proof.
  induction ls as [|l ls IH]; intros last fuel Hls Hlast Hfuel.
  - unfold names_of. simpl in *.
    apply andb_true_iff in Hlast as [Hnl Hlen].
    apply negb_true_iff in Hnl. apply Nat.leb_le in Hlen.
    destruct last as [|c last]; [by destruct fuel|].
    destruct fuel as [|fuel]; [simpl in Hfuel; lia|].
    simpl file_chunks. unfold fgets.
    rewrite fgets_chars_last by (done || lia).
    by destruct fuel.
  - simpl in Hls. apply andb_true_iff in Hls as [Hl Hls].
    apply andb_true_iff in Hl as [Hnl Hlen].
    apply negb_true_iff in Hnl. apply Nat.leb_le in Hlen.
    simpl unlines in *. rewrite length_append in Hfuel. simpl in Hfuel.
    destruct fuel as [|fuel]; [lia|].
    unfold names_of. simpl map. simpl app.
    assert (Hfg : fgets n (l +:+ String newline (unlines ls last))
                  = Some ((l +:+ String newline EmptyString)%string,
                          unlines ls last)).
    { unfold fgets. rewrite fgets_chars_line by (done || lia).
      destruct l; reflexivity. }
    simpl file_chunks. rewrite Hfg. f_equal. apply IH; [done|done|lia].
Qed.

Lemma stored_all_ok env bs : forall j,
  (forall i, malloc_ok env i = true) -> stored env j bs = bs.
Proof.
  induction bs as [|b bs IH]; intros j Hok; simpl; [done|].
  by rewrite Hok, IH.
Qed.

Lemma hostfile_log_all_ok env bs : forall j,
  (forall i, malloc_ok env i = true) ->
  hostfile_log env j bs
    = map (fun b => EPrint stdout (LogHostName (c_str b))) bs.
Proof.
  induction bs as [|b bs IH]; intros j Hok; simpl; [done|].
  by rewrite Hok, IH.
Qed.

(** X9.  In a host file whose lines fit the line buffer, every line
    becomes one host entry, in file order, blank lines included, and the
    name stored for a line keeps the newline that ends it; a last line
    without a newline is stored as it is.  [parse_hostfile] returns the
    number of lines.  (Stated for allocations that succeed and files
    that fit the host array.) *)
Theorem hostfile_lines_keep_newline (P : platform) (env : environment)
    (file : string) (ls : list string) (last : string)
    (s : launcher_session_t) :
  let names := names_of ls last in
  fopen env file = Some (unlines ls last) ->
  (2 <= MAX_HOSTNAME_LEN P)%nat ->
  forallb (line_fits (MAX_HOSTNAME_LEN P)) ls = true ->
  last_fits (MAX_HOSTNAME_LEN P) last = true ->
  (forall i, malloc_ok env i = true) ->
  (length names <= length (host_info s))%nat ->
  Z.of_nat (length names) <= INT_MAX ->
  exists s',
    parse_hostfile P env file s
      = Some (Done (Z.of_nat (length names)), s',
              map (fun b => EPrint stdout (LogHostName (c_str b))) names) /\
    (forall k b, names !! k = Some b ->
       host_info s' !! k = Some (Some {| hostname := c_str b |})).
Proof.
  intros names Hopen Hn Hls Hlast Hok Hcap Hmax.
  assert (Hchunks : file_chunks (String.length (unlines ls last))
                      (MAX_HOSTNAME_LEN P) (unlines ls last) = names)
    by (by apply file_chunks_lines).
  destruct (read_hosts_spec P env (String.length (unlines ls last)) 0
              (unlines ls last) (set_host_count 0 s))
    as (s' & Hrun & Hcount & _ & _ & Hent & _);
    rewrite ?Hchunks; simpl; try lia; try done.
  rewrite Hchunks in *.
  rewrite stored_all_ok in * by done.
  rewrite hostfile_log_all_ok in Hrun by done.
  exists s'. unfold parse_hostfile. rewrite Hopen.
  unfold bind, modify, get, ret. simpl in Hrun. rewrite Hrun. simpl.
  simpl in Hcount. rewrite Hcount, app_nil_r.
  split; [reflexivity|]. intros k b Hk. by apply (Hent k b).
Qed.

Lemma c_str_length (b : string) :
  (String.length (c_str b) <= String.length b)%nat.
Proof.
  induction b as [|c b IH]; simpl; [lia|].
  destruct (Ascii.eqb c nul); simpl; lia.
Qed.

Lemma stored_Forall (Q : string -> Prop) env bs : forall j,
  Forall Q bs -> Forall Q (stored env j bs).
Proof.
  induction bs as [|b bs IH]; intros j Hall; simpl; [done|].
  inversion Hall as [|? ? Hb Hbs]; subst.
  destruct (malloc_ok env j); simpl; [constructor; [done|]|]; by apply IH.
Qed.

Lemma stored_length env bs : forall j,
  (length (stored env j bs) <= length bs)%nat.
Proof.
  induction bs as [|b bs IH]; intros j; simpl; [lia|].
  specialize (IH (S j)). destruct (malloc_ok env j); simpl; lia.
Qed.

Lemma parse_hostfile_ready (P : platform) (env : environment)
    (file contents : string) (s : launcher_session_t) :
  let bs := file_chunks (String.length contents) (MAX_HOSTNAME_LEN P) contents in
  fopen env file = Some contents ->
  (2 <= MAX_HOSTNAME_LEN P)%nat ->
  (length bs <= length (host_info s))%nat ->
  (length bs <= length (skt_conns s))%nat ->
  Z.of_nat (length bs) <= INT_MAX ->
  exists s',
    parse_hostfile P env file s
      = Some (Done (Z.of_nat (length (stored env 0 bs))), s',
              hostfile_log env 0 bs) /\
    host_count s' = Z.of_nat (length (stored env 0 bs)) /\
    (length (stored env 0 bs) <= length bs)%nat /\
    session_ready s' = true /\
    (forall k, (k < length (stored env 0 bs))%nat ->
       exists h, host_info s' !! k = Some (Some h) /\
                 (String.length (hostname h) < MAX_HOSTNAME_LEN P)%nat) /\
    skt_conns s' = skt_conns s.
Proof.
  intros bs Hopen Hn Hcap Hconn Hmax.
  destruct (file_chunks_spec (MAX_HOSTNAME_LEN P) (String.length contents)
              contents Hn ltac:(lia)) as (_ & Hall).
  fold bs in Hall.
  destruct (read_hosts_spec P env (String.length contents) 0 contents
              (set_host_count 0 s))
    as (s' & Hrun & Hcount & _ & _ & Hent & Hf); simpl; try lia; try done.
  fold bs in Hrun, Hcount, Hent. simpl in Hcount, Hent, Hrun.
  destruct (hostfile_frame _ _ Hf) as (_ & _ & _ & Hskt & _). simpl in Hskt.
  pose proof (stored_length env bs 0) as Hslen.
  pose proof (stored_Forall _ env bs 0 Hall) as Hsall.
  assert (Hslot : forall k, (k < length (stored env 0 bs))%nat ->
            exists h, host_info s' !! k = Some (Some h) /\
                      (String.length (hostname h) < MAX_HOSTNAME_LEN P)%nat).
  { intros k Hk.
    destruct (lookup_lt_is_Some_2 (stored env 0 bs) k Hk) as [b Hb].
    eexists. split; [by apply (Hent k b)|]. simpl.
    pose proof (c_str_length b) as Hcl.
    rewrite Forall_lookup in Hsall. specialize (Hsall k b Hb). simpl in Hsall.
    lia. }
  exists s'.
  split.
  { unfold parse_hostfile. rewrite Hopen.
    unfold bind, modify, get, ret. rewrite Hrun. simpl.
    by rewrite Hcount, app_nil_r. }
  split; [done|]. split; [lia|]. split; [|split; [|done]].
  - unfold session_ready. rewrite Hskt.
    apply andb_true_iff. split; [apply andb_true_iff; split|].
    + apply forallb_forall. intros k Hk. apply in_seq in Hk.
      destruct (Hslot k ltac:(lia)) as (h & -> & _). done.
    + apply Nat.leb_le. lia.
    + apply Z.leb_le. lia.
  - intros k Hk. apply Hslot. lia.
Qed.

(** X10.  [parse_hostfile] leaves the session ready for setup and
    dispatch: it returns the number [n] of entries it stored, which is
    also [host_count]; every slot below [n] holds an entry, and the name
    in it, terminator included, fits the [MAX_HOSTNAME_LEN] bytes of the
    line buffer, so the unchecked [strcpy] into the entry never copies
    more than the buffer holds.  The connection handles are not touched.
    (Stated for files whose pieces fit the two arrays.) *)
Theorem parse_hostfile_prepares_session (P : platform) (env : environment)
    (file contents : string) (s : launcher_session_t) :
  let bs := file_chunks (String.length contents) (MAX_HOSTNAME_LEN P) contents in
  fopen env file = Some contents ->
  (2 <= MAX_HOSTNAME_LEN P)%nat ->
  (length bs <= length (host_info s))%nat ->
  (length bs <= length (skt_conns s))%nat ->
  Z.of_nat (length bs) <= INT_MAX ->
  exists n s' t,
    parse_hostfile P env file s = Some (Done n, s', t) /\
    host_count s' = n /\ 0 <= n <= Z.of_nat (length bs) /\
    session_ready s' = true /\
    (forall k, (k < Z.to_nat n)%nat ->
       exists h, host_info s' !! k = Some (Some h) /\
                 (String.length (hostname h) < MAX_HOSTNAME_LEN P)%nat) /\
    skt_conns s' = skt_conns s.
Proof.
  intros bs Hopen Hn Hcap Hconn Hmax.
  destruct (parse_hostfile_ready P env file contents s Hopen Hn Hcap Hconn Hmax)
    as (s' & Hrun & Hcount & Hlen & Hready & Hslot & Hskt).
  fold bs in Hrun, Hcount, Hlen, Hslot.
  eexists _, s', _. split; [exact Hrun|]. split; [done|]. split; [lia|].
  split; [done|]. split; [|done].
  intros k Hk. apply Hslot. lia.
Qed.

(** ** What the runs of the launcher emit *)

Section EmitsOnly.

Context {A B : Type} (Q : event -> Prop).

Lemma emits_ret (a : A) : emits_only Q (ret a).
Proof. intros s r s' t [= <- <- <-]. constructor. Qed.

Lemma emits_undefined : emits_only Q (@undefined A).
Proof. intros s r s' t. discriminate. Qed.

Lemma emits_exit c w : emits_only Q (@exit A c w).
Proof. intros s r s' t [= <- <- <-]. constructor. Qed.

Lemma emits_bind (m : M A) (k : A -> M B) :
  emits_only Q m -> (forall a, emits_only Q (k a)) -> emits_only Q (bind m k).
Proof.
  intros Hm Hk s r s' t. unfold bind.
  destruct (m s) as [[[[a|c w] s1] t1]|] eqn:Em; [| |done].
  - destruct (k a s1) as [[[r2 s2] t2]|] eqn:Ek; [|done].
    intros [= <- <- <-]. apply Forall_app. split; [by eapply Hm|by eapply Hk].
  - intros [= <- <- <-]. by eapply Hm.
Qed.

End EmitsOnly.

Lemma emits_get Q : emits_only Q get.
Proof. intros s r s' t [= <- <- <-]. constructor. Qed.

Lemma emits_modify Q f : emits_only Q (modify f).
Proof. intros s r s' t [= <- <- <-]. constructor. Qed.

Lemma emits_emit (Q : event -> Prop) e : Q e -> emits_only Q (emit e).
Proof. intros He s r s' t [= <- <- <-]. by repeat constructor. Qed.

Lemma emits_read_host_slot Q i : emits_only Q (read_host_slot i).
Proof.
  intros s r s' t. unfold read_host_slot.
  destruct (host_info s !! i); [|done]. intros [= <- <- <-]. constructor.
Qed.

Lemma emits_write_host_slot Q i p : emits_only Q (write_host_slot i p).
Proof.
  intros s r s' t. unfold write_host_slot.
  destruct (host_info s !! i); [|done]. intros [= <- <- <-]. constructor.
Qed.

Lemma emits_write_skt_conn Q i fd : emits_only Q (write_skt_conn i fd).
Proof.
  intros s r s' t. unfold write_skt_conn.
  destruct (skt_conns s !! i); [|done]. intros [= <- <- <-]. constructor.
Qed.

Lemma emits_for_loop Q body n :
  (forall i, emits_only Q (body i)) -> forall i, emits_only Q (for_loop n i body).
Proof.
  intros Hb. induction n as [|n IH]; intros i; simpl.
  - apply emits_ret.
  - apply emits_bind; [apply Hb|intros _; apply IH].
Qed.

(** One step of the analysis of what a computation emits. *)
Ltac emits_step :=
  first
    [ apply emits_ret | apply emits_get | apply emits_modify
    | apply emits_undefined | apply emits_exit
    | apply emits_read_host_slot | apply emits_write_host_slot
    | apply emits_write_skt_conn
    | apply emits_emit; first [exact I | reflexivity]
    | apply emits_for_loop; intros ?
    | apply emits_bind; [|intros ?]
    | match goal with
      | |- emits_only _ (match ?x with _ => _ end) => destruct x
      end ].

Ltac emits := repeat emits_step.

Lemma emits_parse_cmdline P argv : emits_only printed (parse_cmdline P argv).
Proof. unfold parse_cmdline, usage, arg, strcpy, fprintf. emits. Qed.

Lemma emits_read_hosts P env fuel : forall j fp,
  emits_only printed (read_hosts P env fuel j fp).
Proof.
  induction fuel as [|fuel IH]; intros j fp; simpl.
  - destruct (fgets _ fp) as [[buffer fp']|]; emits.
  - destruct (fgets _ fp) as [[buffer fp']|]; [|apply emits_ret].
    apply emits_bind; [|intros _; apply IH].
    unfold read_host_line, alloc_host_entry, slot_index, store_hostname,
      host_name_at, fprintf.
    emits.
Qed.

Lemma emits_parse_hostfile P env file :
  emits_only printed (parse_hostfile P env file).
Proof.
  unfold parse_hostfile, fprintf. destruct (fopen env file) as [contents|].
  - apply emits_bind; [apply emits_modify|]. intros _.
    apply emits_bind; [apply emits_read_hosts|]. intros _. emits.
  - emits.
Qed.

Lemma emits_setup env : emits_only printed (launcher_session_setup env).
Proof.
  unfold launcher_session_setup, setup_host, host_name_at, fprintf. emits.
Qed.

Lemma emits_weaken {A} (Q Q' : event -> Prop) (m : M A) :
  (forall e, Q e -> Q' e) -> emits_only Q m -> emits_only Q' m.
Proof.
  intros HQ Hm s r s' t H. eapply Forall_impl; [by eapply Hm|exact HQ].
Qed.

Lemma printed_protocol_message P e : printed e -> protocol_message P e.
Proof. by destruct e. Qed.

Section ProtocolMessages.

Variable P : platform.
Variable env : environment.

Lemma emits_send_ctrlmsg i msg :
  msg = "start" \/ msg = "stop" ->
  emits_only (protocol_message P)
    (launcher_send_ctrlmsg P env (Z.of_nat i) msg).
Proof.
  intros Hmsg. unfold launcher_send_ctrlmsg, sendto_server.
  apply emits_bind; [|intros _; apply emits_ret].
  apply emits_emit. simpl. split; [done|]. split; [lia|done].
Qed.

Lemma emits_start_host i : emits_only (protocol_message P) (start_host P env i).
Proof.
  unfold start_host, host_name_at, sendto_server, fprintf.
  apply emits_bind; [emits|]. intros name.
  apply emits_bind; [emits|]. intros _.
  apply emits_bind; [emits|]. intros s.
  apply emits_bind.
  { apply emits_bind; [|intros _; apply emits_ret].
    apply emits_emit. simpl. split; [done|]. split; [lia|done]. }
  intros _. apply emits_bind.
  { apply emits_bind; [|intros _; apply emits_ret].
    apply emits_emit. simpl. split; [done|]. split; [lia|done]. }
  intros r. apply emits_bind; [apply emits_send_ctrlmsg; by left|].
  intros c. emits.
Qed.

Lemma emits_start_loop n : forall i r,
  emits_only (protocol_message P) (start_loop P env n i r).
Proof.
  induction n as [|n IH]; intros i r; simpl; [apply emits_ret|].
  apply emits_bind; [apply emits_start_host|intros r'; apply IH].
Qed.

Lemma emits_cleanup : emits_only (protocol_message P) launcher_session_cleanup.
Proof. unfold launcher_session_cleanup, cleanup_slot. emits. Qed.

Lemma emits_rxmsg_callback fd buf :
  emits_only (protocol_message P) (launcher_rxmsg_callback fd buf).
Proof.
  unfold launcher_rxmsg_callback, fprintf.
  apply emits_bind; [emits|]. intros _.
  apply emits_bind; [emits|]. intros _.
  apply emits_bind; [emits|]. intros s.
  destruct (nr_active s <=? nr_ackd s); [|apply emits_ret].
  apply emits_bind; [emits|]. intros _. apply emits_cleanup.
Qed.

Lemma emits_signal_handler :
  emits_only (protocol_message P) (launcher_signal_handler P env).
Proof.
  unfold launcher_signal_handler, stop_host, fprintf.
  apply emits_bind; [emits|]. intros _.
  apply emits_bind; [emits|]. intros s.
  apply emits_bind; [|intros _; apply emits_cleanup].
  apply emits_for_loop. intros i.
  apply emits_bind; [apply emits_send_ctrlmsg; by right|].
  intros _. apply emits_ret.
Qed.

Lemma emits_deliver_all ds :
  emits_only (protocol_message P) (deliver_all P env ds).
Proof.
  induction ds as [|d ds IH]; simpl; [apply emits_ret|].
  apply emits_bind; [|done].
  destruct d as [fd buf|fd|]; simpl.
  - apply emits_rxmsg_callback.
  - unfold launcher_shutdown_callback, fprintf. emits.
  - destruct (sigaction_ok env); [apply emits_signal_handler|apply emits_exit].
Qed.

Lemma emits_session_start :
  emits_only (protocol_message P) (launcher_session_start P env).
Proof.
  unfold launcher_session_start, comlink_client_start.
  apply emits_bind; [apply emits_get|]. intros s.
  apply emits_bind; [apply emits_start_loop|]. intros r.
  apply emits_bind; [|intros _; apply emits_ret].
  apply emits_bind; [emits|]. intros _. apply emits_deliver_all.
Qed.

End ProtocolMessages.

(** X11.  Whatever a run of [main] sends, it sends in one of three
    shapes: an instance count whose length is the size of the field, an
    executable name whose length is that of the string without its
    terminator, or the command "start" or "stop" with the size of a
    pointer as length.  The byte count handed to the transport always
    equals the length field of the header, and the destination is never
    negative. *)
Theorem main_sends_protocol_messages (P : platform) (env : environment)
    (argv : list string) (s : launcher_session_t)
    (r : outcome Z) (s' : launcher_session_t) (t : list event) :
  main P env argv s = Some (r, s', t) ->
  Forall (protocol_message P) t.
Proof.
  revert s r s' t. change (emits_only (protocol_message P) (main P env argv)).
  pose proof (printed_protocol_message P) as Hw.
  unfold main, fprintf.
  apply emits_bind; [apply (emits_weaken _ _ _ Hw), emits_parse_cmdline|].
  intros r. apply emits_bind; [emits|]. intros _.
  apply emits_bind; [apply emits_get|]. intros s.
  apply emits_bind; [apply (emits_weaken _ _ _ Hw), emits_parse_hostfile|].
  intros n. apply emits_bind; [emits|]. intros _.
  apply emits_bind; [apply (emits_weaken _ _ _ Hw), emits_setup|].
  intros r0. apply emits_bind; [emits|]. intros _.
  apply emits_bind; [emits|]. intros _.
  apply emits_bind; [apply emits_session_start|]. intros _.
  apply emits_bind; [apply emits_cleanup|]. intros _. apply emits_ret.
Qed.

(** ** How [main] ends *)

Lemma bind_exited {A B} (m : M A) (k : A -> M B) s c w s' t :
  bind m k s = Some (Exited c w, s', t) ->
  m s = Some (Exited c w, s', t) \/
  exists a s1 t1 t2,
    m s = Some (Done a, s1, t1) /\ k a s1 = Some (Exited c w, s', t2) /\
    t = t1 ++ t2.
Proof.
  unfold bind. destruct (m s) as [[[[a|c1 w1] s1] t1]|]; [| |done].
  - destruct (k a s1) as [[[r2 s2] t2]|] eqn:Ek; [|done].
    intros [= -> <- <-]. right. by exists a, s1, t1, t2.
  - intros [= -> -> <- <-]. by left.
Qed.

Lemma bind_done {A B} (m : M A) (k : A -> M B) s b s' t :
  bind m k s = Some (Done b, s', t) ->
  exists a s1 t1 t2,
    m s = Some (Done a, s1, t1) /\ k a s1 = Some (Done b, s', t2) /\
    t = t1 ++ t2.
Proof.
  unfold bind. destruct (m s) as [[[[a|c1 w1] s1] t1]|]; [| |done].
  - destruct (k a s1) as [[[r2 s2] t2]|] eqn:Ek; [|done].
    intros [= -> <- <-]. by exists a, s1, t1, t2.
  - discriminate.
Qed.

Lemma parse_hostfile_exited P env file s c w s' t :
  parse_hostfile P env file s = Some (Exited c w, s', t) ->
  c = 2 /\ w = AtHostfileOpen /\ t = [EPrint stderr (LogHostfileError file)].
Proof.
  unfold parse_hostfile. destruct (fopen env file) as [contents|].
  - intros H. exfalso. revert H.
    assert (Ha : exits_avoid w
              (modify (set_host_count 0) ;;
               read_hosts P env (String.length contents) 0 contents ;;
               s0 <- get ;; ret (host_count s0))).
    { apply avoid_bind; [apply avoid_modify|]. intros _.
      apply avoid_bind; [apply avoid_read_hosts|]. intros _. avoid. }
    apply Ha.
  - by intros [= <- <- <- <-].
Qed.

(** The part of [main] from setup on ends the process only through the
    default action of SIGINT. *)
Lemma avoid_main_tail P env w :
  w <> AtSigint ->
  exits_avoid w
    (r <- launcher_session_setup env ;;
     (if negb (r =? 0) then exit 2 AtSetupFailed else ret tt) ;;
     (if sigaction_ok env then ret tt else fprintf stdout LogUnstable) ;;
     launcher_session_start P env ;;
     launcher_session_cleanup ;;
     ret 0).
Proof.
  intros Hw.
  apply (avoid_bind_returning _ (fun r => r = 0));
    [apply avoid_setup|apply setup_returns_zero|].
  intros r0 ->. simpl.
  apply avoid_bind; [apply avoid_ret|]. intros _.
  apply avoid_bind; [unfold fprintf; avoid|]. intros _.
  apply avoid_bind; [by apply avoid_session_start|]. intros _.
  apply avoid_bind; [apply avoid_cleanup|]. intros _. apply avoid_ret.
Qed.

(** X12.  Every [exit] that [main] takes has status 2 and is one of the
    three configuration errors: invalid options, unreadable host file, no
    hosts.  It happens before any transport activity: the run has
    printed lines only, sent nothing and freed nothing, and the last line
    is the diagnostic of that error on the error stream.  (The process
    can otherwise end only by returning from [main], or by SIGINT when no
    handler could be installed.) *)
Theorem main_exits_only_on_configuration_errors (P : platform)
    (env : environment) (argv : list string) (s : launcher_session_t)
    (c : Z) (w : exit_site) (s' : launcher_session_t) (t : list event) :
  main P env argv s = Some (Exited c w, s', t) ->
  w <> AtSigint ->
  c = 2 /\
  Forall printed t /\
  exists t0 l, t = t0 ++ [EPrint stderr l] /\ exit_diagnostic w l.
Proof.
  intros Hrun Hw. unfold main in Hrun.
  apply bind_exited in Hrun as [Hex|(r & s1 & t1 & t2 & Hcmd & Hrun & ->)].
  { by apply avoid_parse_cmdline in Hex. }
  pose proof (emits_parse_cmdline P argv _ _ _ _ Hcmd) as Hp1.
  apply bind_exited in Hrun as [Hex|([] & s2 & t3 & t4 & Hchk & Hrun & ->)].
  { destruct (r =? -1); [|done]. revert Hex.
    unfold bind, fprintf, emit, exit. simpl. intros [= <- <- <- <-].
    split; [done|]. split.
    - apply Forall_app. split; [done|]. by repeat constructor.
    - by exists t1, LogInvalidOptions. }
  assert (s2 = s1 /\ t3 = []) as [-> ->].
  { destruct (r =? -1); [by revert Hchk; unfold bind, fprintf, emit, exit|].
    by injection Hchk as <- <-. }
  apply bind_exited in Hrun as [Hex|(s3 & s4 & t5 & t6 & Hget & Hrun & ->)];
    [done|].
  injection Hget as <- <- <-.
  apply bind_exited in Hrun as [Hex|(n & s5 & t7 & t8 & Hhf & Hrun & ->)].
  { apply parse_hostfile_exited in Hex as (-> & -> & ->).
    split; [done|]. split.
    - apply Forall_app. split; [done|]. by repeat constructor.
    - exists t1, (LogHostfileError (host_file s1)). simpl.
      split; [done|]. by eexists. }
  pose proof (emits_parse_hostfile P env _ _ _ _ _ Hhf) as Hp2.
  apply bind_exited in Hrun as [Hex|([] & s6 & t9 & t10 & Hchk2 & Hrun & ->)].
  { destruct (n <=? 0); [|done]. revert Hex.
    unfold bind, fprintf, emit, exit. simpl. intros [= <- <- <- <-].
    split; [done|]. split.
    - repeat (apply Forall_app; split); try done. by repeat constructor.
    - exists (t1 ++ t7), LogNoHosts. split; [|done].
      by rewrite <- !app_assoc. }
  exfalso. by apply (avoid_main_tail P env w Hw) in Hrun.
Qed.

Lemma teardown_work_none t : Forall no_teardown t -> teardown_work t = [].
Proof.
  induction 1 as [|e t He _ IH]; [done|].
  unfold teardown_work in *. simpl. unfold no_teardown in He. by rewrite He.
Qed.

Lemma printed_no_teardown e : printed e -> no_teardown e.
Proof. by destruct e. Qed.

Lemma one_teardown_freed hi n :
  one_teardown (freed hi 0 n ++ [EClientShutdown]).
Proof.
  exists (freed hi 0 n). rewrite teardown_work_app, teardown_work_freed.
  split; [done|]. split; [apply NoDup_freed|].
  apply Forall_forall. intros e He.
  apply elem_of_freed in He as (j & -> & _). by exists j.
Qed.

Lemma one_teardown_app_l t1 t2 :
  teardown_work t1 = [] -> one_teardown t2 -> one_teardown (t1 ++ t2).
Proof.
  intros H1 (frees & Hf & Hnd & Hall). exists frees.
  by rewrite teardown_work_app, H1.
Qed.

Lemma one_teardown_app_r t1 t2 :
  one_teardown t1 -> teardown_work t2 = [] -> one_teardown (t1 ++ t2).
Proof.
  intros (frees & Hf & Hnd & Hall) H2. exists frees.
  by rewrite teardown_work_app, H2, app_nil_r.
Qed.

Lemma cleanup_step s :
  slots_in_range s ->
  exists s' t,
    launcher_session_cleanup s = Some (Done tt, s', t) /\
    valid s' = false /\ teardown_step s s' t.
Proof.
  intros Hr. unfold teardown_step. destruct (valid s) eqn:Hv.
  - rewrite cleanup_valid by done. eexists _, _. split; [reflexivity|].
    simpl. split; [done|]. split; [|apply one_teardown_freed].
    unfold slots_in_range in *. simpl. by rewrite length_clear_slots.
  - rewrite cleanup_invalid by done. exists s, []. by rewrite Hv.
Qed.

Section TeardownSteps.

Variable P : platform.
Variable env : environment.

Lemma deliver_step d s :
  slots_in_range s ->
  exists r s' t, deliver P env d s = Some (r, s', t) /\ teardown_step s s' t.
Proof.
  intros Hr. destruct d as [fd buf|fd|]; simpl.
  - rewrite rxmsg_callback_spec. cbv zeta.
    destruct (nr_active s <=? _).
    + destruct (cleanup_step (set_nr_ackd (int_wrap (nr_ackd s + 1)) s) Hr)
        as (s' & t & -> & Hv' & Hr' & Hstep).
      eexists _, _, _. split; [reflexivity|]. split; [done|].
      simpl in Hstep. rewrite Hv' in *.
      destruct (valid s); [|done].
      destruct Hstep as (frees & Hw & Hnd & Hall). by exists frees.
    + eexists _, _, _. split; [reflexivity|]. split; [done|]. simpl.
      by destruct (valid s).
  - rewrite shutdown_callback_spec. eexists _, _, _. split; [reflexivity|].
    split; [done|].
    assert (teardown_work (peer_shutdown_trace fd) = []) as ->
      by (unfold peer_shutdown_trace; by destruct (0 <? fd)).
    by destruct (valid s).
  - destruct (sigaction_ok env).
    + rewrite signal_handler_spec.
      destruct (cleanup_step s Hr) as (s' & t & -> & Hv' & Hr' & Hstep).
      eexists _, _, _. split; [reflexivity|]. split; [done|].
      rewrite Hv' in *.
      assert (Hw : teardown_work
                (EPrint stdout LogCtrlC
                   :: stops P 0 (Z.to_nat (host_count s)) ++ t)
              = teardown_work t).
      { change (EPrint stdout LogCtrlC :: ?l) with ([EPrint stdout LogCtrlC] ++ l).
        by rewrite !teardown_work_app, teardown_work_stops. }
      destruct (valid s).
      * destruct Hstep as (frees & Hf & Hnd & Hall).
        exists frees. by rewrite Hw.
      * rewrite Hw. by destruct Hstep.
    + eexists _, _, _. split; [reflexivity|]. split; [done|].
      by destruct (valid s).
Qed.

Lemma deliver_all_step ds : forall s,
  slots_in_range s ->
  exists r s' t, deliver_all P env ds s = Some (r, s', t) /\ teardown_step s s' t.
Proof.
  induction ds as [|d ds IH]; intros s Hr; simpl.
  - exists (Done tt), s, []. split; [done|]. split; [done|].
    by destruct (valid s).
  - destruct (deliver_step d s Hr) as (r1 & s1 & t1 & Hd & Hr1 & H1).
    unfold bind. rewrite Hd.
    destruct r1 as [[]|c w]; [|by eexists _, _, _].
    destruct (IH s1 Hr1) as (r2 & s2 & t2 & -> & Hr2 & H2).
    eexists _, _, _. split; [reflexivity|]. split; [done|].
    destruct (valid s), (valid s1), (valid s2);
      repeat match goal with H : _ /\ _ |- _ => destruct H end;
      try discriminate.
    + by rewrite teardown_work_app, H1, H2.
    + by apply one_teardown_app_l.
    + by apply one_teardown_app_r.
    + split; [done|]. rewrite teardown_work_app.
      repeat match goal with H : teardown_work _ = [] |- _ => rewrite H; clear H end.
      done.
Qed.

Lemma emits_start_loop_no_teardown n : forall i r,
  emits_only no_teardown (start_loop P env n i r).
Proof.
  induction n as [|n IH]; intros i r; simpl; [apply emits_ret|].
  apply emits_bind; [|intros r'; apply IH].
  unfold start_host, host_name_at, sendto_server, launcher_send_ctrlmsg,
    fprintf.
  emits.
Qed.

Lemma start_loop_allocated n : forall i r s r' s' t,
  start_loop P env n i r s = Some (Done r', s', t) ->
  forall j, (i <= j < i + n)%nat -> exists h, host_info s !! j = Some (Some h).
Proof.
  induction n as [|n IH]; intros i r s r' s' t Hrun j Hj; [lia|].
  simpl in Hrun.
  apply bind_done in Hrun as (r1 & s1 & t1 & t2 & H1 & H2 & _).
  assert (s1 = s) as ->
    by (by apply (preserves_start_host P (fun x => x = s) env i s (Done r1) s1 t1)).
  destruct (decide (j = i)) as [->|Hne]; [|eapply IH; [exact H2|lia]].
  revert H1. unfold start_host, host_name_at, bind, read_host_slot.
  destruct (host_info s !! i) as [[h|]|]; [by exists h|done|done].
Qed.

End TeardownSteps.

Lemma teardown_step_prefix s s' t0 t :
  teardown_work t0 = [] -> teardown_step s s' t -> teardown_step s s' (t0 ++ t).
Proof.
  intros H0 [Hr H]. split; [done|].
  destruct (valid s), (valid s').
  - by rewrite teardown_work_app, H0, H.
  - by apply one_teardown_app_l.
  - destruct H as [? H]. by rewrite teardown_work_app, H0, H.
  - destruct H as [? H]. by rewrite teardown_work_app, H0, H.
Qed.

Lemma setup_valid env s r s' t :
  launcher_session_setup env s = Some (r, s', t) -> valid s' = true.
Proof.
  rewrite setup_unfold. intros H.
  destruct (for_loop _ _ _ (setup_init s)) as [[[r1 s1] t1]|] eqn:E; [|done].
  assert (s1 = s') as -> by (destruct r1 as [[]|]; congruence).
  apply (preserves_for_loop (fun x => valid x = true) (setup_host env)
           (Z.to_nat (host_count s))) with (i := 0%nat) (s := setup_init s)
           (r := r1) (t := t1); [|reflexivity|exact E].
  intros i. unfold setup_host.
  apply preserves_bind; [by apply preserves_host_name_at|]. intros name.
  destruct (hostname_to_netaddr env i name) as [a|]; [|apply preserves_ret].
  apply preserves_bind; [by apply preserves_modify|]. intros _.
  apply preserves_bind; [apply preserves_get|]. intros s0.
  apply preserves_bind; [by apply preserves_write_skt_conn|]. intros _.
  destruct (_ =? -1); [apply preserves_emit|by apply preserves_modify].
Qed.

Lemma session_start_step P env s r s' t :
  launcher_session_start P env s = Some (Done r, s', t) ->
  teardown_step s s' t.
Proof.
  unfold launcher_session_start, comlink_client_start. intros Hrun.
  apply bind_done in Hrun as (s0 & s1 & t1 & t2 & Hget & Hrun & ->).
  injection Hget as <- <- <-.
  apply bind_done in Hrun as (r1 & s2 & t3 & t4 & Hloop & Hrun & ->).
  pose proof (emits_start_loop_no_teardown P env _ _ _ _ _ _ _ Hloop) as Hnone.
  pose proof (start_loop_allocated P env _ _ _ _ _ _ _ Hloop) as Halloc.
  apply start_loop_state in Hloop as ->.
  assert (Hr : slots_in_range s).
  { unfold slots_in_range.
    destruct (Z.to_nat (host_count s)) as [|n] eqn:En; [lia|].
    destruct (Halloc n ltac:(lia)) as [h Hh].
    apply lookup_lt_Some in Hh. lia. }
  apply bind_done in Hrun as ([] & s3 & t5 & t6 & Hwait & Hret & ->).
  injection Hret as <- <- <-.
  apply bind_done in Hwait as ([] & s4 & t7 & t8 & Hemit & Hdel & ->).
  injection Hemit as <- <-.
  destruct (deliver_all_step P env (deliveries env) s Hr)
    as (r2 & s5 & t9 & Hd & Hstep).
  rewrite Hd in Hdel. injection Hdel as -> -> ->.
  simpl. apply teardown_step_prefix; [by apply teardown_work_none|].
  rewrite app_nil_r.
  by apply (teardown_step_prefix _ _ [EClientStart]).
Qed.

(** X13.  In a run of [main] during which no SIGINT arrives and which
    returns, the status is 0, the session is left cleaned up, and exactly
    one teardown did its work, whichever of the receive callback and the
    final call in [main] came first: each host entry is freed at most
    once and the transport is shut down once, after the last [free].
    (The handler of SIGINT interrupts the program wherever it is, and
    [launcher_session_cleanup] tests and clears [valid] without
    protection, so runs with a SIGINT are left out.) *)
Theorem main_returns_after_one_teardown (P : platform) (env : environment)
    (argv : list string) (s : launcher_session_t)
    (r : Z) (s' : launcher_session_t) (t : list event) :
  no_interrupt (deliveries env) = true ->
  main P env argv s = Some (Done r, s', t) ->
  r = 0 /\ valid s' = false /\ one_teardown t.
Proof.
  intros _ Hrun. unfold main in Hrun.
  apply bind_done in Hrun as (r1 & s1 & t1 & ? & Hcmd & Hrun & ->).
  pose proof (emits_parse_cmdline P argv _ _ _ _ Hcmd) as Hp1.
  apply bind_done in Hrun as ([] & s2 & t2 & ? & Hchk & Hrun & ->).
  assert (t2 = []) as ->.
  { destruct (r1 =? -1); [by revert Hchk; unfold bind, fprintf, emit, exit|].
    by injection Hchk as <- <-. }
  apply bind_done in Hrun as (s3 & s4 & t3 & ? & Hget & Hrun & ->).
  injection Hget as <- <- <-.
  apply bind_done in Hrun as (n & s5 & t4 & ? & Hhf & Hrun & ->).
  pose proof (emits_parse_hostfile P env _ _ _ _ _ Hhf) as Hp2.
  apply bind_done in Hrun as ([] & s6 & t5 & ? & Hchk2 & Hrun & ->).
  assert (s6 = s5 /\ t5 = []) as [-> ->].
  { destruct (n <=? 0); [by revert Hchk2; unfold bind, fprintf, emit, exit|].
    by injection Hchk2 as <- <-. }
  apply bind_done in Hrun as (r0 & s7 & t6 & ? & Hsetup & Hrun & ->).
  pose proof (emits_setup env _ _ _ _ Hsetup) as Hp3.
  pose proof (setup_valid _ _ _ _ _ Hsetup) as Hv7.
  apply bind_done in Hrun as ([] & s8 & t7 & ? & Hchk3 & Hrun & ->).
  assert (s8 = s7 /\ t7 = []) as [-> ->].
  { destruct (negb (r0 =? 0)); [done|]. by injection Hchk3 as <- <-. }
  apply bind_done in Hrun as ([] & s9 & t8 & ? & Hsig & Hrun & ->).
  assert (s9 = s7 /\ Forall printed t8) as [-> Hp4].
  { destruct (sigaction_ok env).
    - injection Hsig as <- <-. by split.
    - injection Hsig as <- <-. split; [done|]. by repeat constructor. }
  apply bind_done in Hrun as (r2 & s10 & t9 & ? & Hstart & Hrun & ->).
  apply session_start_step in Hstart as [Hr10 Hstep].
  rewrite Hv7 in Hstep.
  apply bind_done in Hrun as ([] & s11 & t10 & ? & Hclean & Hret & ->).
  injection Hret as <- <- <-.
  destruct (cleanup_step s10 Hr10) as (s12 & t11 & Hc & Hv12 & _ & Hstep2).
  rewrite Hc in Hclean. injection Hclean as -> ->.
  split; [done|]. split; [done|].
  assert (Hnone : forall u, Forall printed u -> teardown_work u = []).
  { intros u Hu. apply teardown_work_none.
    eapply Forall_impl; [exact Hu|apply printed_no_teardown]. }
  rewrite app_nil_r.
  apply one_teardown_app_l; [by apply Hnone|]. simpl.
  apply one_teardown_app_l; [by apply Hnone|]. simpl.
  apply one_teardown_app_l; [by apply Hnone|]. simpl.
  apply one_teardown_app_l; [by apply Hnone|].
  rewrite Hv12 in Hstep2. destruct (valid s10).
  - by apply one_teardown_app_l.
  - destruct Hstep2 as [_ Hstep2]. by apply one_teardown_app_r.
Qed.

Lemma setup_keeps_ready env s :
  session_ready s = true ->
  exists s' t,
    launcher_session_setup env s = Some (Done 0, s', t) /\
    session_ready s' = true.
Proof.
  intros Hready.
  destruct (setup_run env s Hready)
    as (s' & Hrun & _ & _ & Hconn & Hhi & Hhc & _).
  eexists _, _. split; [exact Hrun|].
  pose proof (session_ready_allocated s Hready) as Halloc.
  unfold session_ready in *. rewrite Hhi, Hhc.
  apply andb_true_iff in Hready as [Hready Hmax].
  apply andb_true_iff in Hready as [Hall Hcap].
  apply Nat.leb_le in Hcap.
  rewrite Hall, Hmax, andb_true_r. simpl. apply Nat.leb_le.
  destruct (Z.to_nat (host_count s)) as [|n] eqn:En; [lia|].
  specialize (Hconn n ltac:(lia)).
  destruct (lookup_lt_is_Some_2 (skt_conns s) n ltac:(lia)) as [c Hc].
  assert (is_Some (skt_conns s' !! n)) as Hsome.
  { rewrite Hconn. destruct (connect_result env (host_info s) n); [done|].
    by rewrite Hc. }
  apply lookup_lt_is_Some_1 in Hsome. lia.
Qed.

Section WholeRuns.

Variable P : platform.
Variable env : environment.

(** [main] from the point where the command line has been accepted and
    the host file has been read. *)
Lemma main_unfold argv s s1 t1 n s2 t2 :
  parse_cmdline P argv s = Some (Done 0, s1, t1) ->
  parse_hostfile P env (host_file s1) s1 = Some (Done n, s2, t2) ->
  main P env argv s =
    match
      ((if n <=? 0 then fprintf stderr LogNoHosts ;; exit 2 AtNoHosts
        else ret tt) ;;
       r <- launcher_session_setup env ;;
       (if negb (r =? 0) then exit 2 AtSetupFailed else ret tt) ;;
       (if sigaction_ok env then ret tt else fprintf stdout LogUnstable) ;;
       launcher_session_start P env ;;
       launcher_session_cleanup ;;
       ret 0) s2
    with
    | Some (r, s3, t3) => Some (r, s3, t1 ++ t2 ++ t3)
    | None => None
    end.
Proof.
  intros Hcmd Hhf. unfold main. unfold bind at 1. rewrite Hcmd. simpl.
  unfold bind at 1. simpl. unfold bind at 1, get. unfold bind at 1.
  rewrite Hhf.
  destruct ((_ ;; _) s2) as [[[r3 s3] t3]|]; reflexivity.
Qed.

(** [main] goes from an accepted command line and a stored host list to
    the event loop: setup returns 0, every host entry is dispatched to and
    [comlink_client_start] is called, whatever the connects gave. *)
Lemma main_enters_event_loop argv s s1 t1 n s2 t2 :
  parse_cmdline P argv s = Some (Done 0, s1, t1) ->
  parse_hostfile P env (host_file s1) s1 = Some (Done n, s2, t2) ->
  1 <= n ->
  session_ready s2 = true ->
  exists s3 t3 r s' t',
    launcher_session_setup env s2 = Some (Done 0, s3, t3) /\
    session_ready s3 = true /\
    main P env argv s =
      Some (r, s',
            t1 ++ t2 ++ t3 ++
            (if sigaction_ok env then [] else [EPrint stdout LogUnstable]) ++
            dispatch_trace P env s3 0 (Z.to_nat (host_count s3)) ++
            EClientStart :: t').
Proof.
  intros Hcmd Hhf Hn Hready.
  destruct (setup_keeps_ready env s2 Hready) as (s3 & t3 & Hsetup & Hready3).
  pose proof (session_ready_allocated s3 Hready3) as Halloc.
  destruct (start_loop_spec P env (Z.to_nat (host_count s3)) 0 0 s3)
    as [r Hloop]. { intros j Hj. apply Halloc. lia. }
  destruct (deliver_all_step P env (deliveries env) s3
              (session_ready_slots s3 Hready3))
    as (r4 & s4 & t4 & Hd & Hr4 & _).
  rewrite (main_unfold argv s s1 t1 n s2 t2 Hcmd Hhf).
  assert ((n <=? 0) = false) as -> by (apply Z.leb_gt; lia).
  assert (Hsig :
    (if sigaction_ok env then ret tt else fprintf stdout LogUnstable) s3 =
      Some (Done tt, s3,
            if sigaction_ok env then [] else [EPrint stdout LogUnstable])).
  { by destruct (sigaction_ok env). }
  unfold launcher_session_start, comlink_client_start, bind, get, emit.
  simpl. rewrite Hsetup. simpl. rewrite Hsig, Hloop, Hd.
  destruct r4 as [[]|c w].
  - destruct (cleanup_step s4 Hr4) as (s5 & t5 & Hclean & _).
    simpl. rewrite Hclean. simpl.
    eexists s3, t3, _, _, _. split; [done|]. split; [done|].
    rewrite ?app_nil_r, <- ?app_assoc. simpl. reflexivity.
  - simpl.
    eexists s3, t3, _, _, _. split; [done|]. split; [done|].
    rewrite ?app_nil_r, <- ?app_assoc. simpl. reflexivity.
Qed.

End WholeRuns.

(** C10.  [launcher_session_setup] returns 0 whenever it returns, and it
    does return for every session whose slots hold the host entries,
    whatever the resolver and the transport answer; with every resolution
    or every connect failing it leaves a valid session with
    [nr_active = 0].  [main] never ends at the [exit] that follows a
    non-zero status of setup, and it takes the session without a
    connection on to dispatch and to the wait phase: after an accepted
    command line and a host file with at least one entry, when no host
    connects, the run of [main] consists of the output of the two
    parsers, the diagnostics of setup, the three messages sent to each
    host entry and the entry into the event loop, with [nr_active = 0]
    at that point. *)
Theorem setup_always_succeeds (P : platform) (env : environment)
    (s : launcher_session_t) :
  (forall r s' t, launcher_session_setup env s = Some (r, s', t) -> r = Done 0) /\
  (session_ready s = true ->
   exists s' t, launcher_session_setup env s = Some (Done 0, s', t) /\
     valid s' = true /\
     ((forall j, connected env (host_info s) j = false) -> nr_active s' = 0)) /\
  (forall argv c s' t,
     main P env argv s <> Some (Exited c AtSetupFailed, s', t)) /\
  (forall argv s1 t1 n s2 t2,
     parse_cmdline P argv s = Some (Done 0, s1, t1) ->
     parse_hostfile P env (host_file s1) s1 = Some (Done n, s2, t2) ->
     1 <= n ->
     session_ready s2 = true ->
     (forall j, connected env (host_info s2) j = false) ->
     exists s3 t3 r s' t',
       launcher_session_setup env s2 = Some (Done 0, s3, t3) /\
       nr_active s3 = 0 /\ valid s3 = true /\
       host_count s3 = host_count s2 /\
       List.filter is_send
           (dispatch_trace P env s3 0 (Z.to_nat (host_count s3)))
         = flat_map (dispatch_messages P s3)
             (seq 0 (Z.to_nat (host_count s3))) /\
       main P env argv s =
         Some (r, s',
               t1 ++ t2 ++ t3 ++
               (if sigaction_ok env then [] else [EPrint stdout LogUnstable]) ++
               dispatch_trace P env s3 0 (Z.to_nat (host_count s3)) ++
               EClientStart :: t')).
Proof.
  assert (Hzero : forall s0, session_ready s0 = true ->
            (forall j, connected env (host_info s0) j = false) ->
            forall s' t, launcher_session_setup env s0 = Some (Done 0, s', t) ->
            nr_active s' = 0 /\ valid s' = true /\ host_count s' = host_count s0).
  { intros s0 Hready Hnone s' t Hrun.
    destruct (setup_run env s0 Hready)
      as (s'' & Hrun' & Hn & _ & _ & _ & Hhc & _ & Hv).
    rewrite Hrun in Hrun'. injection Hrun' as -> _.
    split; [|by split]. rewrite Hn. unfold count_connected.
    assert (Hnil : forall l, List.filter (connected env (host_info s0)) l = []).
    { induction l as [|x l IHl]; simpl; [done|]. by rewrite Hnone. }
    by rewrite Hnil. }
  split; [|split; [|split]].
  - intros [a|c w] s' t H.
    + f_equal. by eapply setup_returns_zero.
    + by apply avoid_setup in H.
  - intros Hready.
    destruct (setup_keeps_ready env s Hready) as (s' & t & Hrun & _).
    exists s', t. split; [exact Hrun|].
    split; [eapply setup_valid; exact Hrun|].
    intros Hnone. by destruct (Hzero s Hready Hnone s' t Hrun).
  - intros argv. revert s. change (exits_avoid AtSetupFailed (main P env argv)).
    unfold main, fprintf.
    apply avoid_bind; [apply avoid_parse_cmdline|]. intros r.
    apply avoid_bind; [avoid|]. intros _.
    apply avoid_bind; [apply avoid_get|]. intros s.
    apply avoid_bind; [by apply avoid_parse_hostfile|]. intros n.
    apply avoid_bind; [avoid|]. intros _.
    apply (avoid_bind_returning _ (fun r => r = 0));
      [apply avoid_setup|apply setup_returns_zero|].
    intros r0 ->. simpl.
    apply avoid_bind; [apply avoid_ret|]. intros _.
    apply avoid_bind; [avoid|]. intros _.
    apply avoid_bind; [by apply avoid_session_start|]. intros _.
    apply avoid_bind; [apply avoid_cleanup|]. intros _. apply avoid_ret.
  - intros argv s1 t1 n s2 t2 Hcmd Hhf Hn Hready Hnone.
    destruct (main_enters_event_loop P env argv s s1 t1 n s2 t2
                Hcmd Hhf Hn Hready)
      as (s3 & t3 & r & s' & t' & Hsetup & Hready3 & Hmain).
    destruct (Hzero s2 Hready Hnone s3 t3 Hsetup) as (Hn3 & Hv3 & Hhc3).
    exists s3, t3, r, s', t'. split; [exact Hsetup|].
    split; [exact Hn3|]. split; [exact Hv3|]. split; [exact Hhc3|].
    split; [|exact Hmain].
    apply is_send_dispatch_trace. intros j Hj.
    apply (session_ready_allocated s3 Hready3). lia.
Qed.

(** Witness of C10: the only host of the file fails to connect; setup
    still returns 0 and [main] goes on to dispatch and the event loop. *)
Lemma setup_always_succeeds_witness :
  (session_ready two_hosts = true /\
   exists s' t,
     launcher_session_setup env_none_connect two_hosts = Some (Done 0, s', t) /\
     valid s' = true /\ nr_active s' = 0) /\
  exists s3 r s' t',
    nr_active s3 = 0 /\
    main lp64 env_none_connect argv_ok (launcher_session lp64) =
      Some (r, s',
            [EPrint stdout (LogCmdline 4 "hosts" "/bin/app")] ++
            [EPrint stdout (LogHostName ("alpha" +:+ nl))] ++
            [EPrint stderr (LogSetupFailed 167772161)] ++
            [] ++
            dispatch_trace lp64 env_none_connect s3 0
              (Z.to_nat (host_count s3)) ++
            EClientStart :: t').
Proof.
  split.
  - split; [reflexivity|].
    destruct (setup_always_succeeds lp64 env_none_connect two_hosts)
      as (_ & Hrun & _).
    destruct (Hrun eq_refl) as (s' & t & H & Hv & Hn).
    exists s', t. split; [exact H|]. split; [exact Hv|].
    apply Hn. intros j. by destruct j as [|[|[|[|j]]]].
  - destruct (setup_always_succeeds lp64 env_none_connect
                (launcher_session lp64)) as (_ & _ & _ & Hmain).
    edestruct (Hmain argv_ok) as (s3 & t3 & r & s' & t' & Hsetup & Hn & _ & _ & _ & Hrun).
    + vm_compute. reflexivity.
    + vm_compute. reflexivity.
    + lia.
    + vm_compute. reflexivity.
    + intros j. unfold connected, connect_result.
      by destruct (resolved_ip _ _ j).
    + exists s3, r, s', t'. split; [exact Hn|].
      rewrite Hrun. repeat f_equal.
      revert Hsetup. vm_compute. intros H. by injection H as _ <-.
Defined.

(** X14.  When no host entry is stored, because the host file is empty or
    because every allocation fails, [main] prints the diagnostics of the
    failed allocations and "no hosts found", and exits with status 2
    before setup: no connection is attempted and nothing is sent. *)
Theorem main_exits_without_hosts (P : platform) (env : environment)
    (argv : list string) (s s1 : launcher_session_t) (t1 : list event)
    (contents : string) :
  let bs := file_chunks (String.length contents) (MAX_HOSTNAME_LEN P) contents in
  parse_cmdline P argv s = Some (Done 0, s1, t1) ->
  fopen env (host_file s1) = Some contents ->
  (2 <= MAX_HOSTNAME_LEN P)%nat ->
  (length bs <= length (host_info s1))%nat ->
  (length bs <= length (skt_conns s1))%nat ->
  Z.of_nat (length bs) <= INT_MAX ->
  stored env 0 bs = [] ->
  exists s',
    main P env argv s =
      Some (Exited 2 AtNoHosts, s',
            t1 ++ hostfile_log env 0 bs ++ [EPrint stderr LogNoHosts]) /\
    host_count s' = 0.
Proof.
  intros bs Hcmd Hopen Hn Hcap Hconn Hmax Hnone.
  destruct (parse_hostfile_ready P env _ contents s1 Hopen Hn Hcap Hconn Hmax)
    as (s2 & Hrun & Hcount & _).
  fold bs in Hrun, Hcount. rewrite Hnone in Hrun, Hcount. simpl in Hrun, Hcount.
  rewrite (main_unfold P env argv s s1 t1 _ _ _ Hcmd Hrun).
  exists s2. split; [reflexivity|done].
Qed.


(** ** Concrete runs of the further properties *)

Lemma cleanup_clears_every_slot_witness :
  valid two_connected = true /\
  exists s' frees,
    launcher_session_cleanup two_connected
      = Some (Done tt, s', frees ++ [EClientShutdown]) /\
    EFree 1 ∈ frees /\
    host_info s' !! 1%nat = Some None /\ skt_conns s' = [5; 6; 0; 0].
Proof.
  split; [reflexivity|].
  destruct (cleanup_clears_every_slot two_connected)
    as (s' & frees & Hrun & Hnull & _ & Hfrees & _ & Hskt & _).
  - reflexivity.
  - unfold slots_in_range. simpl. lia.
  - exists s', frees. split; [exact Hrun|]. split; [|split].
    + apply Hfrees. exists 1%nat. split; [done|]. split; [simpl; lia|].
      by eexists.
    + apply Hnull. simpl. lia.
    + exact Hskt.
Defined.

Lemma signal_handler_stops_then_cleans_witness :
  slots_in_range two_connected /\
  exists s',
    launcher_signal_handler lp64 env_all_connect two_connected
      = Some (Done tt, s',
              [ EPrint stdout LogCtrlC;
                ESend 0 {| type := CTRL_MESSAGE; len := 8 |} (PStr "stop") 8;
                ESend 1 {| type := CTRL_MESSAGE; len := 8 |} (PStr "stop") 8;
                EFree 0; EFree 1; EClientShutdown ]) /\
    valid s' = false.
Proof.
  assert (Hr : slots_in_range two_connected)
    by (unfold slots_in_range; simpl; lia).
  split; [exact Hr|].
  destruct (signal_handler_stops_then_cleans lp64 env_all_connect
              two_connected Hr) as (s' & Hrun & Hv & _).
  exists s'. split; [exact Hrun|exact Hv].
Defined.

Lemma start_returns_last_exec_status_witness :
  session_ready two_connected = true /\
  exists t,
    start_loop lp64 env_start_fails 2 0 0 two_connected
      = Some (Done 0, two_connected, t).
Proof.
  split; [reflexivity|].
  destruct (start_returns_last_exec_status lp64 env_start_fails two_connected)
    as (Hrun & _); [reflexivity|].
  eexists. exact Hrun.
Defined.

Lemma dispatch_after_teardown_is_undefined_witness :
  valid two_connected = true /\ 1 <= host_count two_connected /\
  (launcher_signal_handler lp64 env_all_connect ;;
   launcher_session_start lp64 env_all_connect) two_connected = None.
Proof.
  split; [reflexivity|]. split; [simpl; lia|].
  destruct (dispatch_after_teardown_is_undefined lp64 env_all_connect
              ByInterrupt two_connected) as (Hstart & _).
  - reflexivity.
  - unfold slots_in_range. simpl. lia.
  - simpl. lia.
  - exact Hstart.
Defined.

Lemma parse_cmdline_too_few_arguments_witness :
  parse_cmdline lp64 ["launcher"; "-np"; "4"] (launcher_session lp64)
    = Some (Done (-1), launcher_session lp64,
            [EPrint stderr (LogUsage "launcher")]).
Proof.
  apply (parse_cmdline_too_few_arguments lp64 "launcher" ["-np"; "4"]).
  simpl. lia.
Defined.

Lemma parse_cmdline_result_witness :
  parse_cmdline lp64
    ["launcher"; "-npx"; "7"; "--hosts"; "ignored"; "/bin/app"; "extra"]
    (launcher_session lp64)
  = Some (Done (-1),
          set_exe_name "/bin/app" (set_instances 7 (launcher_session lp64)),
          []).
Proof.
  apply (parse_cmdline_result lp64 "launcher" "-npx" "7" "--hosts" "ignored"
           "/bin/app" ["extra"] (launcher_session lp64)).
  - intros _. change (numeral_value "7") with 7.
    unfold in_int, INT_MIN, INT_MAX. lia.
  - intros _. simpl. lia.
  - simpl. lia.
Defined.

Lemma parse_cmdline_overlong_argument_witness :
  (EXE_NAME_SIZE small_buffers <= String.length "/opt/cluster/bin/app")%nat /\
  parse_cmdline small_buffers
    ["launcher"; "-np"; "4"; "-hostfile"; "hosts"; "/opt/cluster/bin/app"]
    (launcher_session small_buffers) = None.
Proof.
  split; [simpl; lia|].
  apply (parse_cmdline_overlong_argument small_buffers "launcher" "-np" "4"
           "-hostfile" "hosts" "/opt/cluster/bin/app" []).
  right. simpl. lia.
Defined.

Lemma hostfile_lines_keep_newline_witness :
  exists s',
    parse_hostfile lp64 env_blank_line "hosts" (launcher_session lp64)
      = Some (Done 3, s',
              [ EPrint stdout (LogHostName ("alpha" +:+ nl));
                EPrint stdout (LogHostName nl);
                EPrint stdout (LogHostName "beta") ]) /\
    host_info s' !! 1%nat = Some (Some {| hostname := nl |}).
Proof.
  destruct (hostfile_lines_keep_newline lp64 env_blank_line "hosts"
              ["alpha"; EmptyString] "beta" (launcher_session lp64))
    as (s' & Hrun & Hent).
  - reflexivity.
  - simpl. lia.
  - reflexivity.
  - reflexivity.
  - intros i. reflexivity.
  - simpl. lia.
  - vm_compute. discriminate.
  - exists s'. split; [exact Hrun|]. exact (Hent 1%nat nl eq_refl).
Defined.

Lemma parse_hostfile_prepares_session_witness :
  exists n s' t,
    parse_hostfile lp64 env_long_line "hosts" (launcher_session lp64)
      = Some (Done n, s', t) /\
    n = 2 /\ session_ready s' = true.
Proof.
  destruct (parse_hostfile_prepares_session lp64 env_long_line "hosts"
              (long_name +:+ nl) (launcher_session lp64))
    as (n & s' & t & Hrun & _ & _ & Hready & _).
  - reflexivity.
  - simpl. lia.
  - vm_compute. lia.
  - vm_compute. lia.
  - vm_compute. discriminate.
  - exists n, s', t. split; [exact Hrun|]. split; [|exact Hready].
    vm_compute in Hrun. by injection Hrun as <- _ _.
Defined.

Lemma main_sends_protocol_messages_witness :
  exists r s' t,
    main lp64 env_busy_wait argv_ok (launcher_session lp64) = Some (r, s', t) /\
    Forall (protocol_message lp64) t.
Proof.
  eexists _, _, _. split; [vm_compute; reflexivity|].
  eapply (main_sends_protocol_messages lp64 env_busy_wait argv_ok
            (launcher_session lp64)).
  vm_compute. reflexivity.
Defined.

Lemma main_exits_only_on_configuration_errors_witness :
  exists s' t,
    main lp64 env_all_connect ["launcher"; "-np"; "4"] (launcher_session lp64)
      = Some (Exited 2 AtInvalidOptions, s', t) /\
    Forall printed t.
Proof.
  eexists _, _. split; [vm_compute; reflexivity|].
  eapply (main_exits_only_on_configuration_errors lp64 env_all_connect
            ["launcher"; "-np"; "4"] (launcher_session lp64) 2
            AtInvalidOptions).
  - vm_compute. reflexivity.
  - discriminate.
Defined.

Lemma main_returns_after_one_teardown_witness :
  no_interrupt (deliveries env_report_then_shutdown) = true /\
  exists s' t,
    main lp64 env_report_then_shutdown argv_ok (launcher_session lp64)
      = Some (Done 0, s', t) /\
    one_teardown t.
Proof.
  split; [reflexivity|].
  eexists _, _. split; [vm_compute; reflexivity|].
  eapply (main_returns_after_one_teardown lp64 env_report_then_shutdown
            argv_ok (launcher_session lp64) 0).
  - reflexivity.
  - vm_compute. reflexivity.
Defined.

Lemma main_exits_without_hosts_witness :
  exists s',
    main lp64 env_empty_file argv_ok (launcher_session lp64)
      = Some (Exited 2 AtNoHosts, s',
              [ EPrint stdout (LogCmdline 4 "hosts" "/bin/app");
                EPrint stderr LogNoHosts ]).
Proof.
  destruct (main_exits_without_hosts lp64 env_empty_file argv_ok
              (launcher_session lp64)
              (set_exe_name "/bin/app"
                 (set_host_file "hosts"
                    (set_instances 4 (launcher_session lp64))))
              [EPrint stdout (LogCmdline 4 "hosts" "/bin/app")] EmptyString)
    as (s' & Hrun & _).
  - vm_compute. reflexivity.
  - reflexivity.
  - simpl. lia.
  - simpl. lia.
  - simpl. lia.
  - vm_compute. discriminate.
  - reflexivity.
  - exists s'. exact Hrun.
Defined.

